(** * FileView: the streaming chat session protocol

    A shallow embedding of the three pieces of the repository that carry the
    chat session protocol:

    - the relay server ([Server]): [sendSafe], [getMockResponse],
      [sendMockResponse], [streamGeminiResponse], [handleChatMessage] and the
      per-connection message listener;
    - the chat panel ([Chat]): [handleWebSocketMessage] of [Chat.tsx];
    - the reconnecting socket hook ([Hook]): [useWebSocket] with its
      [connect], [disconnect], [sendMessage] and the socket callbacks.

    Time is abstracted: [sleep] and the retry delay only order events, so a
    timer is a pending identifier that the environment may fire.

    An updater function handed to [setMessages] is not run at the call:
    React queues it and runs it when it renders next, and an updater that
    reads [currentAssistantIdRef.current] reads what the ref holds then.
    [Chat] is the panel when React renders after every event; [Panel] keeps
    the queue, for any placing of the renders. *)

From Stdlib Require Import ZArith Lia Bool.
From Stdlib Require Import Strings.String Strings.Ascii.
From Stdlib Require Import Numbers.DecimalString.
From stdpp Require Import base list strings.

Local Open Scope string_scope.
Local Open Scope list_scope.

(** ** JavaScript strings

    A string is the UTF-8 encoding of the JavaScript string.  [toLowerCase]
    is the ASCII part of the JavaScript function: it maps [A]..[Z] and
    leaves every other byte as it is, where JavaScript also lowers the
    capitals outside ASCII. *)

Module JsString.

Definition lower_ascii (c : ascii) : ascii :=
  let n := nat_of_ascii c in
  if (65 <=? n)%nat && (n <=? 90)%nat then ascii_of_nat (n + 32) else c.

Fixpoint toLowerCase (s : string) : string :=
  match s with
  | EmptyString => EmptyString
  | String c r => String (lower_ascii c) (toLowerCase r)
  end.

Fixpoint startsWith (p s : string) : bool :=
  match p, s with
  | EmptyString, _ => true
  | String _ _, EmptyString => false
  | String a p', String b s' => Ascii.eqb a b && startsWith p' s'
  end.

(** [hay.includes(needle)] *)
Fixpoint includes (hay needle : string) : bool :=
  startsWith needle hay ||
  match hay with
  | EmptyString => false
  | String _ r => includes r needle
  end.

(** [s.split(' ')]: one field per separator, empty fields kept, never an
    empty array. *)
Fixpoint split_space (s : string) : list string :=
  match s with
  | EmptyString => [EmptyString]
  | String c r =>
      if Ascii.eqb c " "%char then EmptyString :: split_space r
      else match split_space r with
           | w :: ws => String c w :: ws
           | [] => [String c EmptyString]
           end
  end.

(** Concatenation of a list of strings, as [+=] in a loop builds it. *)
Definition concat_all (l : list string) : string :=
  foldr String.append EmptyString l.

(** [a || b] on a value that is a string or [undefined]. *)
Definition or_else (a : option string) (b : string) : string :=
  match a with
  | Some s => if String.eqb s "" then b else s
  | None => b
  end.

(** [s + v] where [v] is a string or [undefined]. *)
Definition plus (s : string) (v : option string) : string :=
  s +:+ match v with Some t => t | None => "undefined" end.

(** Truthiness of a string-or-null reference. *)
Definition truthy (a : option string) : bool :=
  match a with
  | Some s => negb (String.eqb s "")
  | None => false
  end.

(** A template literal prints a non-negative integer in decimal. *)
Definition of_number (n : Z) : string :=
  NilZero.string_of_int (Z.to_int n).

Definition dquote : string := String (ascii_of_nat 34) EmptyString.

(** [s.trim()].  It strips the WhiteSpace and LineTerminator code points
    of the language: U+0009 to U+000D and U+0020, one byte each in UTF-8
    ([Ascii.is_space]); U+00A0, two bytes; U+1680, U+2000 to U+200A, U+2028,
    U+2029, U+202F, U+205F, U+3000 and U+FEFF, three bytes each. *)
Definition is_byte (n : nat) (c : ascii) : bool := (nat_of_ascii c =? n)%nat.

Definition white_space2 (c d : ascii) : bool :=
  is_byte 194 c && is_byte 160 d.

Definition white_space3 (c d e : ascii) : bool :=
  let x := nat_of_ascii e in
  (is_byte 225 c && is_byte 154 d && is_byte 128 e)
  || (is_byte 226 c && is_byte 128 d &&
      (((128 <=? x)%nat && (x <=? 138)%nat) || is_byte 168 e || is_byte 169 e || is_byte 175 e))
  || (is_byte 226 c && is_byte 129 d && is_byte 159 e)
  || (is_byte 227 c && is_byte 128 d && is_byte 128 e)
  || (is_byte 239 c && is_byte 187 d && is_byte 191 e).

Fixpoint trimStart (s : string) : string :=
  match s with
  | EmptyString => EmptyString
  | String c r =>
      if Ascii.is_space c then trimStart r
      else match r with
           | String d r2 =>
               if white_space2 c d then trimStart r2
               else match r2 with
                    | String e r3 => if white_space3 c d e then trimStart r3 else s
                    | EmptyString => s
                    end
           | EmptyString => s
           end
  end.

(** A suffix is stripped when it consists of white space only. *)
Fixpoint trimEnd (s : string) : string :=
  match s with
  | EmptyString => EmptyString
  | String c r => if String.eqb (trimStart s) "" then EmptyString else String c (trimEnd r)
  end.

Definition trim (s : string) : string := trimEnd (trimStart s).


End JsString.

(** ** The wire format *)

Module Wire.

(** An object literal handed to [JSON.stringify]: it always names a [type];
    the [content] key may be left out. *)
Record Frame := mkFrame { type : string; content : option string }.

(** What [JSON.parse] makes of an inbound text frame.  [Undecodable]: the
    parser raises.  [DecodedNull]: the text is [null], on which a property
    read raises.  [Decoded ty c]: any other value; [ty] and [c] are its
    [type] and [content] when these are strings, [None] when absent or of
    another kind. *)
Inductive Inbound :=
| Undecodable
| DecodedNull
| Decoded (ty : option string) (c : option string).

(** A frame as the peer decodes it. *)
Definition on_the_wire (f : Frame) : Inbound :=
  Decoded (Some (type f)) (content f).

Inductive ReadyState := CONNECTING | OPEN | CLOSING | CLOSED.

Definition readyState_code (r : ReadyState) : Z :=
  match r with CONNECTING => 0 | OPEN => 1 | CLOSING => 2 | CLOSED => 3 end.

(** How a function body ends. *)
Inductive Completion := Normal | Throw.

(** The six server-to-client types and the one client-to-server type. *)
Definition known_types : list string :=
  ["connected"; "thinking"; "thinking_done"; "stream"; "done"; "error"; "chat"].

(** A frame that is no Session Message: it does not decode, or decodes to
    a value whose [type] is none of the seven. *)
Definition malformed (f : Inbound) : bool :=
  match f with
  | Undecodable => true
  | DecodedNull => true
  | Decoded None _ => true
  | Decoded (Some t) _ => negb (existsb (String.eqb t) known_types)
  end.

Definition has_type (t : string) (f : Frame) : bool := String.eqb (type f) t.

Definition frames_of_type (t : string) (l : list Frame) : list Frame :=
  List.filter (has_type t) l.

End Wire.

(** ** The relay server *)

Module Server.
Import Wire.

(** The server side of one connection: the socket state and the frames that
    went out on it, oldest first.  Every send reads the state; a turn does
    not change it. *)
Record Socket := mkSocket { readyState : ReadyState; outbox : list Frame }.

Definition sendSafe (ws : Socket) (data : Frame) : Socket * bool :=
  if (readyState_code (readyState ws) =? 1)%Z
  then (mkSocket (readyState ws) (outbox ws ++ [data]), true)
  else (ws, false).

(** [sendSafe] used as a statement. *)
Definition send (ws : Socket) (data : Frame) : Socket := fst (sendSafe ws data).

Definition greeting : string :=
  "Hello! How can I help you today? I am your AI assistant and ready to answer any questions you might have.".

Definition getMockResponse (message : string) : string :=
  let text := JsString.toLowerCase message in
  if JsString.includes text "hi" || JsString.includes text "hello" then greeting
  else if JsString.includes text "how are you" then
    "I'm doing great, thank you for asking! As an AI, I'm always ready and eager to help. What can I do for you today?"
  else if JsString.includes text "weather" then
    "I don't have access to real-time weather data, but I'd recommend checking a weather service like weather.com or your phone's weather app for accurate forecasts."
  else if JsString.includes text "help" then
    "I'd be happy to help! You can ask me questions about various topics, get explanations, or have a conversation. What would you like to know?"
  else if JsString.includes text "thank" then
    "You're welcome! Is there anything else I can help you with?"
  else if JsString.includes text "name" then
    "I'm your friendly AI assistant! I'm here to help you with questions and have conversations."
  else if JsString.includes text "what can you do" then
    "I can help you with a variety of tasks! I can answer questions, have conversations, provide explanations, and more. Just ask me anything!"
  else
    "Thanks for your message: " +:+ JsString.dquote +:+ message +:+ JsString.dquote +:+
    ". I'm currently running in demo mode. To get real AI responses, make sure your Gemini API key from https://aistudio.google.com/app/apikey is set in the .env file!".

Definition thinking_frame : Frame := mkFrame "thinking" (Some "Analyzing your question...").
Definition thinking_done_frame : Frame := mkFrame "thinking_done" None.
Definition stream_frame (text : string) : Frame := mkFrame "stream" (Some text).
Definition done_frame (text : string) : Frame := mkFrame "done" (Some text).
Definition error_frame : Frame := mkFrame "error" (Some "Failed to process message").
Definition connected_frame : Frame := mkFrame "connected" (Some "Connected to chat server").

(** The [for (const word of words)] loop. *)
Definition send_words (ws : Socket) (words : list string) : Socket :=
  fold_left (fun ws word => send ws (stream_frame (word +:+ " "))) words ws.

(** [userMessage] is [None] when the chat frame carried no string content:
    [message.toLowerCase] is then not callable and the body raises. *)
Definition sendMockResponse (ws : Socket) (userMessage : option string)
  : Socket * Completion :=
  let ws := send ws thinking_done_frame in
  match userMessage with
  | None => (ws, Throw)
  | Some message =>
      let response := getMockResponse message in
      let words := JsString.split_space response in
      let ws := send_words ws words in
      (send ws (done_frame response), Normal)
  end.

(** One call of [model.generateContentStream]: the call is rejected, or it
    hands back a stream of chunk texts that is exhausted or raises after the
    chunks listed (a raising [chunk.text()] ends the list the same way).

    What is thrown matters to the [catch] block, whose first statement reads
    [error.message].  [Rejects] and [Raises] throw a value the read is
    defined on: an [Error] as a rule, any value but [null] and [undefined]
    in general.  [RejectsNullish] and [RaisesNullish] throw [null] or
    [undefined], on which the read itself raises. *)
Inductive StreamEnd := Exhausted | Raises | RaisesNullish.
Inductive Upstream :=
| Rejects
| RejectsNullish
| Streams (chunks : list string) (ending : StreamEnd).

Definition Model := option string -> Upstream.

(** The module-level [useAI] and [model] after initialisation. *)
Record Globals := mkGlobals { useAI : bool; model : option Model }.

(** The body of the [for await] loop, threading the socket and
    [fullResponse]. *)
Definition forward_chunk (acc : Socket * string) (text : string) : Socket * string :=
  if String.eqb text "" then acc
  else (send (fst acc) (stream_frame text), snd acc +:+ text).

Definition forward_chunks (ws : Socket) (chunks : list string) : Socket * string :=
  fold_left forward_chunk chunks (ws, "").

(** The [catch] block of [streamGeminiResponse]: [console.error] is handed
    [error.message]; the read raises on [null] and [undefined], and the
    fallback of the next line is then never reached. *)
Definition on_gemini_error (message_readable : bool) (ws : Socket)
           (userMessage : option string) : Socket * Completion :=
  if message_readable then sendMockResponse ws userMessage else (ws, Throw).

Definition streamGeminiResponse (m : Model) (ws : Socket) (userMessage : option string)
  : Socket * Completion :=
  let ws := send ws thinking_done_frame in
  match m userMessage with
  | Rejects => on_gemini_error true ws userMessage
  | RejectsNullish => on_gemini_error false ws userMessage
  | Streams chunks ending =>
      let '(ws, fullResponse) := forward_chunks ws chunks in
      match ending with
      | Exhausted => (send ws (done_frame fullResponse), Normal)
      | Raises => on_gemini_error true ws userMessage
      | RaisesNullish => on_gemini_error false ws userMessage
      end
  end.

Definition handleChatMessage (g : Globals) (ws : Socket) (userMessage : option string)
  : Socket * Completion :=
  let ws := send ws thinking_frame in
  match useAI g, model g with
  | true, Some m => streamGeminiResponse m ws userMessage
  | _, _ => sendMockResponse ws userMessage
  end.

(** The [ws.on('message', ...)] listener. *)
Definition onMessage (g : Globals) (ws : Socket) (data : Inbound) : Socket :=
  match data with
  | Undecodable => send ws error_frame
  | DecodedNull => send ws error_frame
  | Decoded ty c =>
      match ty with
      | Some t =>
          if String.eqb t "chat" then
            match handleChatMessage g ws c with
            | (ws', Normal) => ws'
            | (ws', Throw) => send ws' error_frame
            end
          else ws
      | None => ws
      end
  end.

(** The [wss.on('connection', ...)] listener on a fresh socket. *)
Definition onConnection (ws : Socket) : Socket := send ws connected_frame.

(** The frames a turn added to the outbox. *)
Definition emitted (before after : Socket) : list Frame :=
  drop (length (outbox before)) (outbox after).

(** The text a client accumulates from the [stream] frames of a list. *)
Definition streamed_text (l : list Frame) : string :=
  JsString.concat_all
    (List.map (fun f => JsString.plus "" (content f)) (frames_of_type "stream" l)).

(** The frames of one turn on a socket that stays open, path by path, as
    the bodies above send them. *)
Definition nonempty (text : string) : bool := negb (String.eqb text "").

Definition word_frames (response : string) : list Frame :=
  List.map (fun word => stream_frame (word +:+ " ")) (JsString.split_space response).

Definition mock_frames (message : string) : list Frame :=
  thinking_done_frame :: word_frames (getMockResponse message)
    ++ [done_frame (getMockResponse message)].

Definition chunk_frames (chunks : list string) : list Frame :=
  List.map stream_frame (List.filter nonempty chunks).

Definition gemini_frames (u : Upstream) (message : string) : list Frame :=
  thinking_done_frame ::
  match u with
  | Rejects => mock_frames message
  | RejectsNullish => []
  | Streams chunks Exhausted =>
      chunk_frames chunks ++ [done_frame (JsString.concat_all (List.filter nonempty chunks))]
  | Streams chunks Raises => chunk_frames chunks ++ mock_frames message
  | Streams chunks RaisesNullish => chunk_frames chunks
  end.

Definition turn_frames (g : Globals) (message : string) : list Frame :=
  thinking_frame ::
  match useAI g, model g with
  | true, Some m => gemini_frames (m (Some message)) message
  | _, _ => mock_frames message
  end.

(** The upstream service is unavailable, or its call fails for a prompt
    with an error the [catch] block can report. *)
Definition upstream_down (g : Globals) (userMessage : option string) : bool :=
  match useAI g, model g with
  | true, Some m =>
      match m userMessage with
      | Rejects => true
      | Streams _ Raises => true
      | Streams _ Exhausted => false
      | RejectsNullish => false
      | Streams _ RaisesNullish => false
      end
  | _, _ => true
  end.

(** The upstream call fails for a prompt by throwing [null] or
    [undefined]. *)
Definition upstream_fails_nullish (g : Globals) (userMessage : option string) : bool :=
  match useAI g, model g with
  | true, Some m =>
      match m userMessage with
      | RejectsNullish => true
      | Streams _ RaisesNullish => true
      | _ => false
      end
  | _, _ => false
  end.

(** How [streamGeminiResponse] and [handleChatMessage] end on a chat frame
    with string content. *)
Definition gemini_completion (u : Upstream) : Completion :=
  match u with
  | RejectsNullish | Streams _ RaisesNullish => Throw
  | _ => Normal
  end.

Definition turn_completion (g : Globals) (message : string) : Completion :=
  if upstream_fails_nullish g (Some message) then Throw else Normal.

Definition types_of (l : list Frame) : list string := List.map type l.

(** The upstream call was made and failed: the turn started on the
    upstream path and was finished by the fallback. *)
Definition upstream_attempt_failed (g : Globals) (userMessage : option string) : bool :=
  match useAI g, model g with
  | true, Some m =>
      match m userMessage with
      | Rejects => true
      | Streams _ Raises => true
      | Streams _ Exhausted => false
      | RejectsNullish => false
      | Streams _ RaisesNullish => false
      end
  | _, _ => false
  end.

(** Server configurations: no API key; a model whose streaming call is
    rejected; a model whose stream raises after one chunk; the same two
    failures with [undefined] as the value thrown. *)
Definition demo_mode : Globals := mkGlobals false None.
Definition rejecting : Globals := mkGlobals true (Some (fun _ => Rejects)).
Definition breaking : Globals := mkGlobals true (Some (fun _ => Streams ["Sure"] Raises)).
Definition breaking_nullish : Globals :=
  mkGlobals true (Some (fun _ => Streams ["Sure"] RaisesNullish)).
Definition answering : Globals :=
  mkGlobals true (Some (fun _ => Streams ["Hello"; ""; " there"] Exhausted)).

(** A connection right after the server accepted it. *)
Definition accepted : Socket := onConnection (mkSocket OPEN []).

(** *** Start-up: [initializeGemini]

    One probe of a candidate model is the test request
    [generateContent('Hi')] with the reads of [response] and [text()]: it
    raises somewhere, or yields a text. *)
Inductive Probe := ProbeRaises | ProbeText (text : string).

Definition MODEL_OPTIONS : list string :=
  ["gemini-2.5-flash"; "gemini-2.5-pro-preview-03-25"].

(** The outcome of start-up: the module-level [useAI] and [model], and the
    model names announced by [Trying model:], in order. *)
Record Startup := mkStartup { globals : Globals; tried : list string }.

(** The [for (const modelName of MODEL_OPTIONS)] loop; [useAI] and [model]
    are still at their initial values when it falls through. *)
Fixpoint try_models (getGenerativeModel : string -> Model) (probe : string -> Probe)
         (names : list string) : Startup :=
  match names with
  | [] => mkStartup (mkGlobals false None) []
  | modelName :: rest =>
      let next := try_models getGenerativeModel probe rest in
      match probe modelName with
      | ProbeText text =>
          if nonempty text
          then mkStartup (mkGlobals true (Some (getGenerativeModel modelName))) [modelName]
          else mkStartup (globals next) (modelName :: tried next)
      | ProbeRaises => mkStartup (globals next) (modelName :: tried next)
      end
  end.

(** [key] is [process.env.GEMINI_API_KEY]: absent, or a string (the empty
    string is falsy). *)
Definition initializeGemini (key : option string) (getGenerativeModel : string -> Model)
           (probe : string -> Probe) : Startup :=
  match key with
  | None => mkStartup (mkGlobals false None) []
  | Some k =>
      if String.eqb k "" then mkStartup (mkGlobals false None) []
      else try_models getGenerativeModel probe MODEL_OPTIONS
  end.

(** The body of the [/health] route. *)
Definition health (g : Globals) : string * bool := ("ok", useAI g).

(** A probe answered with a non-empty text. *)
Definition probe_ok (p : Probe) : bool :=
  match p with ProbeText text => nonempty text | ProbeRaises => false end.

End Server.

(** ** The chat panel ([Chat.tsx])

    The functions of this module give the state once React has rendered
    the updates of one event: every [setMessages] updater of the event has
    run, after the handler returned, on the ref as the handler left it. *)

Module Chat.
Import Wire.

Inductive MessageType := user | assistant.

(** The [Message] interface.  At run time [content] is whatever the frame
    carried, so it is a string or [undefined] like the two optional fields. *)
Record Message := mkMessage {
  id : string;
  type : MessageType;
  content : option string;
  timestamp : Z;
  isStreaming : option bool;
  displayContent : option string
}.

(** The component state the message handler touches. *)
Record State := mkState {
  messages : list Message;
  isWaiting : bool;
  thinkingText : option string;
  currentAssistantIdRef : option string
}.

Definition wave : string :=
  String (ascii_of_nat 240) (String (ascii_of_nat 159)
    (String (ascii_of_nat 145) (String (ascii_of_nat 139) EmptyString))).

Definition initial (now : Z) : State :=
  mkState [mkMessage "welcome" assistant (Some (wave +:+ " Hi! How can we help?")) now None None]
          false None None.

(** [msg.id === currentAssistantIdRef.current] *)
Definition is_current (ref : option string) (msg : Message) : bool :=
  match ref with
  | Some i => String.eqb (id msg) i
  | None => false
  end.

Definition append_fragment (fragment : option string) (msg : Message) : Message :=
  mkMessage (id msg) (type msg)
            (Some (JsString.plus (JsString.or_else (content msg) "") fragment))
            (timestamp msg) (isStreaming msg)
            (Some (JsString.plus (JsString.or_else (displayContent msg) "") fragment)).

Definition freeze (msg : Message) : Message :=
  mkMessage (id msg) (type msg) (content msg) (timestamp msg) (Some false)
            (displayContent msg).

Definition on_stream (now : Z) (c : option string) (st : State) : State :=
  if negb (JsString.truthy (currentAssistantIdRef st)) then
    let assistantId := "assistant-" +:+ JsString.of_number now in
    mkState (messages st ++ [mkMessage assistantId assistant c now (Some true) c])
            (isWaiting st) None (Some assistantId)
  else
    mkState (List.map (fun msg => if is_current (currentAssistantIdRef st) msg
                                  then append_fragment c msg else msg)
                      (messages st))
            (isWaiting st) None (currentAssistantIdRef st).

(** The [done] case sets the ref to [null] right after it queued its
    updater, so the updater compares every [msg.id] with [null]. *)
Definition on_done (st : State) : State :=
  if JsString.truthy (currentAssistantIdRef st) then
    let current : option string := None in
    mkState (List.map (fun msg => if is_current current msg then freeze msg else msg)
                      (messages st))
            false None current
  else mkState (messages st) false None (currentAssistantIdRef st).

Definition on_error (now : Z) (c : option string) (st : State) : State :=
  mkState (messages st ++
             [mkMessage ("error-" +:+ JsString.of_number now) assistant
                        (Some (JsString.or_else c "Something went wrong. Please try again."))
                        now None None])
          false None None.

(** [handleWebSocketMessage]; [now] is the clock reading at the call.  The
    [switch] has no default, and reading [type] off [null] raises.  The hook
    never hands over a frame that did not decode. *)
Definition handleWebSocketMessage (now : Z) (message : Inbound) (st : State)
  : State * Completion :=
  match message with
  | Undecodable => (st, Normal)
  | DecodedNull => (st, Throw)
  | Decoded None _ => (st, Normal)
  | Decoded (Some t) c =>
      if String.eqb t "connected" then (st, Normal)
      else if String.eqb t "thinking" then
        (mkState (messages st) (isWaiting st) c (currentAssistantIdRef st), Normal)
      else if String.eqb t "thinking_done" then (st, Normal)
      else if String.eqb t "stream" then (on_stream now c st, Normal)
      else if String.eqb t "done" then (on_done st, Normal)
      else if String.eqb t "error" then (on_error now c st, Normal)
      else (st, Normal)
  end.

(** The [onDisconnect] callback the panel passes to the hook. *)
Definition onDisconnect (st : State) : State :=
  mkState (messages st) false None (currentAssistantIdRef st).

(** Delivery of a list of decoded frames, in arrival order; the [k]-th
    frame is handled at clock reading [now + k]. *)
Fixpoint deliver (now : Z) (frames : list Inbound) (st : State) : State :=
  match frames with
  | [] => st
  | f :: rest => deliver (now + 1) rest (fst (handleWebSocketMessage now f st))
  end.

(** The two frames of an answer, as the panel receives them. *)
Definition stream_of (text : string) : Inbound := Decoded (Some "stream") (Some text).
Definition done_of (text : option string) : Inbound := Decoded (Some "done") text.

(** A turn is in progress on message [i], which is the last of the list,
    after [n] earlier ones, and has accumulated [text] since clock reading
    [since]. *)
Definition streaming (i : string) (text : string) (since : Z) (n : nat) (st : State) : Prop :=
  currentAssistantIdRef st = Some i /\
  JsString.truthy (Some i) = true /\
  exists earlier,
    length earlier = n /\
    messages st = earlier ++ [mkMessage i assistant (Some text) since (Some true) (Some text)].

(** [MessageBubble]: the text a bubble shows, and whether there is a bubble
    at all (an assistant message without text renders nothing). *)
Definition displayText (message : Message) : option string :=
  match isStreaming message with
  | Some true => displayContent message
  | _ => content message
  end.

Definition isUser (message : Message) : bool :=
  match type message with user => true | assistant => false end.

Definition rendered (message : Message) : bool :=
  negb (negb (isUser message) && negb (JsString.truthy (displayText message))).

End Chat.

(** ** The chat panel with the updater queue

    The same handler, with the [setMessages] updaters kept until React
    renders.  [setThinkingText] and [setIsWaiting] are given plain values,
    which are the same whenever they are applied, so these two are stored at
    once; the ref is an ordinary assignment. *)

Module Panel.
Import Wire.

(** The three updater functions of [handleWebSocketMessage]. *)
Inductive Updater :=
| AppendMessage (m : Chat.Message)
| AppendToCurrent (fragment : option string)
| FreezeCurrent.

(** One updater, run on the list [prev] while the ref holds [current]. *)
Definition run_updater (current : option string) (prev : list Chat.Message) (u : Updater)
  : list Chat.Message :=
  match u with
  | AppendMessage m => prev ++ [m]
  | AppendToCurrent fragment =>
      List.map (fun msg => if Chat.is_current current msg
                           then Chat.append_fragment fragment msg else msg) prev
  | FreezeCurrent =>
      List.map (fun msg => if Chat.is_current current msg then Chat.freeze msg else msg) prev
  end.

(** [shown] has the message list of the last render and the current values
    of the rest; [pending] has the updaters queued since, oldest first. *)
Record State := mkState { shown : Chat.State; pending : list Updater }.

Definition resting (st : Chat.State) : State := mkState st [].

Definition on_stream (now : Z) (c : option string) (p : State) : State :=
  let st := shown p in
  if negb (JsString.truthy (Chat.currentAssistantIdRef st)) then
    let assistantId := "assistant-" +:+ JsString.of_number now in
    mkState (Chat.mkState (Chat.messages st) (Chat.isWaiting st) None (Some assistantId))
            (pending p ++
               [AppendMessage (Chat.mkMessage assistantId Chat.assistant c now (Some true) c)])
  else
    mkState (Chat.mkState (Chat.messages st) (Chat.isWaiting st) None
                          (Chat.currentAssistantIdRef st))
            (pending p ++ [AppendToCurrent c]).

Definition on_done (p : State) : State :=
  let st := shown p in
  if JsString.truthy (Chat.currentAssistantIdRef st) then
    mkState (Chat.mkState (Chat.messages st) false None None) (pending p ++ [FreezeCurrent])
  else
    mkState (Chat.mkState (Chat.messages st) false None (Chat.currentAssistantIdRef st))
            (pending p).

Definition on_error (now : Z) (c : option string) (p : State) : State :=
  let st := shown p in
  mkState (Chat.mkState (Chat.messages st) false None None)
          (pending p ++
             [AppendMessage
                (Chat.mkMessage ("error-" +:+ JsString.of_number now) Chat.assistant
                   (Some (JsString.or_else c "Something went wrong. Please try again."))
                   now None None)]).

Definition handleWebSocketMessage (now : Z) (message : Inbound) (p : State)
  : State * Completion :=
  match message with
  | Undecodable => (p, Normal)
  | DecodedNull => (p, Throw)
  | Decoded None _ => (p, Normal)
  | Decoded (Some t) c =>
      if String.eqb t "connected" then (p, Normal)
      else if String.eqb t "thinking" then
        let st := shown p in
        (mkState (Chat.mkState (Chat.messages st) (Chat.isWaiting st) c
                               (Chat.currentAssistantIdRef st))
                 (pending p), Normal)
      else if String.eqb t "thinking_done" then (p, Normal)
      else if String.eqb t "stream" then (on_stream now c p, Normal)
      else if String.eqb t "done" then (on_done p, Normal)
      else if String.eqb t "error" then (on_error now c p, Normal)
      else (p, Normal)
  end.

(** The message list a render computes: the queued updaters, oldest first,
    each on the result of the one before, with the ref as it is now. *)
Definition settled (p : State) : list Chat.Message :=
  fold_left (run_updater (Chat.currentAssistantIdRef (shown p))) (pending p)
            (Chat.messages (shown p)).

Definition render (p : State) : State :=
  let st := shown p in
  mkState (Chat.mkState (settled p) (Chat.isWaiting st) (Chat.thinkingText st)
                        (Chat.currentAssistantIdRef st))
          [].

(** What happens to the panel: a frame is handled, or React renders. *)
Inductive Step :=
| Handle (now : Z) (message : Inbound)
| Render.

Definition step (p : State) (s : Step) : State :=
  match s with
  | Handle now message => fst (handleWebSocketMessage now message p)
  | Render => render p
  end.

Definition play (steps : list Step) (p : State) : State := fold_left step steps p.

(** Frames in arrival order, the [k]-th handled at clock reading [now + k]
    and followed by a render when the [k]-th entry of [renders] says so. *)
Fixpoint scheduled (now : Z) (frames : list Inbound) (renders : list bool) : list Step :=
  match frames with
  | [] => []
  | f :: rest =>
      Handle now f :: (if hd false renders then [Render] else [])
        ++ scheduled (now + 1) rest (tl renders)
  end.

(** A turn is in progress on message [i]: once the queue has run, [i] is
    the last message, after [n] earlier ones, and has accumulated [text]
    since clock reading [since]. *)
Definition streaming (i : string) (text : string) (since : Z) (n : nat) (p : State) : Prop :=
  Chat.currentAssistantIdRef (shown p) = Some i /\
  JsString.truthy (Some i) = true /\
  exists earlier,
    length earlier = n /\
    settled p =
      earlier ++ [Chat.mkMessage i Chat.assistant (Some text) since (Some true) (Some text)].

(** No turn is in progress and nothing is queued. *)
Definition idle (msgs : list Chat.Message) (p : State) : Prop :=
  Chat.currentAssistantIdRef (shown p) = None /\
  pending p = [] /\
  Chat.messages (shown p) = msgs.

End Panel.

(** ** The reconnecting socket hook ([useWebSocket]) *)

Module Hook.
Import Wire.

(** [UseWebSocketOptions], over the state [U] the callbacks act on.  The
    message callback is given the clock reading of the delivery. *)
Record UseWebSocketOptions (U : Type) := mkOptions {
  url : string;
  onMessage : option (Z -> Inbound -> U -> U * Completion);
  onConnect : option (U -> U);
  onDisconnect : option (U -> U);
  reconnectInterval : Z;
  maxReconnectAttempts : Z
}.
Arguments mkOptions {U}.
Arguments url {U}.
Arguments onMessage {U}.
Arguments onConnect {U}.
Arguments onDisconnect {U}.
Arguments reconnectInterval {U}.
Arguments maxReconnectAttempts {U}.

(** The hook's refs and state, the browser objects it created (every socket
    ever constructed, indexed by creation order, and the pending timers),
    and the state of the caller that the callbacks update. *)
Record State (U : Type) := mkState {
  sockets : list ReadyState;
  timers : list nat;
  nextTimer : nat;
  wsRef : option nat;
  reconnectAttemptsRef : Z;
  reconnectTimeoutRef : option nat;
  mountedRef : bool;
  isConnected : bool;
  isConnecting : bool;
  ui : U
}.
Arguments mkState {U}.
Arguments sockets {U}.
Arguments timers {U}.
Arguments nextTimer {U}.
Arguments wsRef {U}.
Arguments reconnectAttemptsRef {U}.
Arguments reconnectTimeoutRef {U}.
Arguments mountedRef {U}.
Arguments isConnected {U}.
Arguments isConnecting {U}.
Arguments ui {U}.

(** What a callback of the hook does to the outside, in program order. *)
Inductive Effect :=
| NewWebSocket (s : nat)
| CloseSocket (s : nat)
| SendFrame (s : nat) (f : Frame)
| SetTimeout (t : nat)
| ClearTimeout (t : nat)
| CallOnMessage (m : Inbound)
| CallOnConnect
| CallOnDisconnect
| ConsoleLog (text : string)
| ConsoleWarn (text : string)
| ConsoleError (text : string).

(** Calls from the component and events from the browser. *)
Inductive Event :=
| Connect
| Disconnect
| SendMessage (content : string)
| Unmount
| WsOpen (s : nat)
| WsMessage (s : nat) (data : Inbound) (now : Z)
| WsError (s : nat)
| WsClose (s : nat)
| Timeout (t : nat).

Section UseWebSocket.
Context {U : Type}.
(** Whether the [WebSocket] constructor accepts a URL (it raises otherwise). *)
Variable accepts : string -> bool.
Variable opts : UseWebSocketOptions U.

(** The state of the first render, before the mount effect ran.  Timer
    identifiers are positive, hence truthy. *)
Definition initial (u : U) : State U :=
  mkState [] [] 1 None 0 None true false false u.

(** [wsRef.current?.readyState] *)
Definition current_readyState (h : State U) : option ReadyState :=
  match wsRef h with
  | Some s => sockets h !! s
  | None => None
  end.

Definition connect (h : State U) : State U * list Effect :=
  match current_readyState h with
  | Some OPEN => (h, [ConsoleLog "Already connected"])
  | Some CONNECTING => (h, [ConsoleLog "Already connecting"])
  | _ =>
      if accepts (url opts) then
        let s := length (sockets h) in
        (mkState (sockets h ++ [CONNECTING]) (timers h) (nextTimer h) (Some s)
                 (reconnectAttemptsRef h) (reconnectTimeoutRef h) (mountedRef h)
                 (isConnected h) true (ui h),
         [ConsoleLog "Creating WebSocket connection to:"; NewWebSocket s])
      else
        (mkState (sockets h) (timers h) (nextTimer h) (wsRef h)
                 (reconnectAttemptsRef h) (reconnectTimeoutRef h) (mountedRef h)
                 (isConnected h) false (ui h),
         [ConsoleLog "Creating WebSocket connection to:";
          ConsoleError "Failed to create WebSocket:"])
  end.

Definition call_opt (f : option (U -> U)) (u : U) : U :=
  match f with Some g => g u | None => u end.

Definition onopen (h : State U) : State U * list Effect :=
  if negb (mountedRef h) then (h, [])
  else
    (mkState (sockets h) (timers h) (nextTimer h) (wsRef h) 0
             (reconnectTimeoutRef h) (mountedRef h) true false
             (call_opt (onConnect opts) (ui h)),
     ConsoleLog "WebSocket connected" ::
     match onConnect opts with Some _ => [CallOnConnect] | None => [] end).

Definition with_ui (h : State U) (u : U) : State U :=
  mkState (sockets h) (timers h) (nextTimer h) (wsRef h) (reconnectAttemptsRef h)
          (reconnectTimeoutRef h) (mountedRef h) (isConnected h) (isConnecting h) u.

Definition onmessage (data : Inbound) (now : Z) (h : State U) : State U * list Effect :=
  if negb (mountedRef h) then (h, [])
  else
    match data with
    | Undecodable => (h, [ConsoleError "Failed to parse WebSocket message:"])
    | message =>
        match onMessage opts with
        | None => (h, [])
        | Some f =>
            match f now message (ui h) with
            | (u, Normal) => (with_ui h u, [CallOnMessage message])
            | (u, Throw) =>
                (with_ui h u,
                 [CallOnMessage message; ConsoleError "Failed to parse WebSocket message:"])
            end
        end
    end.

Definition onclose (h : State U) : State U * list Effect :=
  if negb (mountedRef h) then (h, [])
  else
    let u := call_opt (onDisconnect opts) (ui h) in
    let called := match onDisconnect opts with Some _ => [CallOnDisconnect] | None => [] end in
    if mountedRef h && (reconnectAttemptsRef h <? maxReconnectAttempts opts)%Z then
      let t := nextTimer h in
      (mkState (sockets h) (timers h ++ [t]) (S t) None (reconnectAttemptsRef h + 1)
               (Some t) (mountedRef h) false false u,
       ConsoleLog "WebSocket disconnected" :: called ++
       [ConsoleLog "Will reconnect in"; SetTimeout t])
    else
      (mkState (sockets h) (timers h) (nextTimer h) None (reconnectAttemptsRef h)
               (reconnectTimeoutRef h) (mountedRef h) false false u,
       ConsoleLog "WebSocket disconnected" :: called).

(** The callback given to [setTimeout] in [onclose]. *)
Definition retry (h : State U) : State U * list Effect :=
  if mountedRef h then connect h else (h, []).

(** [ws.close()]: an open or opening socket starts closing. *)
Definition close_socket (s : nat) (l : list ReadyState) : list ReadyState :=
  match l !! s with
  | Some CONNECTING | Some OPEN => <[s := CLOSING]> l
  | _ => l
  end.

Definition cancel (t : nat) (l : list nat) : list nat :=
  base.filter (fun x => x <> t) l.

Definition disconnect (h : State U) : State U * list Effect :=
  let '(pending, cleared) :=
    match reconnectTimeoutRef h with
    | Some t => (cancel t (timers h), [ClearTimeout t])
    | None => (timers h, [])
    end in
  let '(socks, closed) :=
    match wsRef h with
    | Some s => (close_socket s (sockets h), [CloseSocket s])
    | None => (sockets h, [])
    end in
  (mkState socks pending (nextTimer h) None (maxReconnectAttempts opts) None
           (mountedRef h) false false (ui h),
   cleared ++ closed).

Definition chat_frame (content : string) : Frame := mkFrame "chat" (Some content).

Definition sendMessage (content : string) (h : State U) : State U * list Effect * bool :=
  match wsRef h, current_readyState h with
  | Some s, Some OPEN => (h, [SendFrame s (chat_frame content)], true)
  | _, _ => (h, [ConsoleWarn "WebSocket not connected, readyState:"], false)
  end.

(** The mount effect and its cleanup. *)
Definition mount (h : State U) : State U * list Effect :=
  connect (mkState (sockets h) (timers h) (nextTimer h) (wsRef h)
                   (reconnectAttemptsRef h) (reconnectTimeoutRef h) true
                   (isConnected h) (isConnecting h) (ui h)).

Definition unmount (h : State U) : State U * list Effect :=
  let '(pending, cleared) :=
    match reconnectTimeoutRef h with
    | Some t => (cancel t (timers h), [ClearTimeout t])
    | None => (timers h, [])
    end in
  let '(socks, closed) :=
    match wsRef h with
    | Some s => (close_socket s (sockets h), [CloseSocket s])
    | None => (sockets h, [])
    end in
  (mkState socks pending (nextTimer h) None (reconnectAttemptsRef h)
           (reconnectTimeoutRef h) false (isConnected h) (isConnecting h) (ui h),
   cleared ++ closed).

Definition with_sockets (h : State U) (l : list ReadyState) : State U :=
  mkState l (timers h) (nextTimer h) (wsRef h) (reconnectAttemptsRef h)
          (reconnectTimeoutRef h) (mountedRef h) (isConnected h) (isConnecting h) (ui h).

Definition with_timers (h : State U) (l : list nat) : State U :=
  mkState (sockets h) l (nextTimer h) (wsRef h) (reconnectAttemptsRef h)
          (reconnectTimeoutRef h) (mountedRef h) (isConnected h) (isConnecting h) (ui h).

(** One event.  A browser event is enabled only in a socket or timer state
    in which the browser can raise it ([None] otherwise): [open] on an
    opening socket, [message] on a socket that is open or closing, [close]
    on a socket not yet closed, a timeout on a pending timer.  The browser
    moves the socket to its new state before it runs the callback. *)
Definition step (h : State U) (e : Event) : option (State U * list Effect) :=
  match e with
  | Connect => Some (connect h)
  | Disconnect => Some (disconnect h)
  | SendMessage content => Some (fst (sendMessage content h))
  | Unmount => Some (unmount h)
  | WsOpen s =>
      match sockets h !! s with
      | Some CONNECTING => Some (onopen (with_sockets h (<[s := OPEN]> (sockets h))))
      | _ => None
      end
  | WsMessage s data now =>
      match sockets h !! s with
      | Some OPEN | Some CLOSING => Some (onmessage data now h)
      | _ => None
      end
  | WsError s =>
      match sockets h !! s with
      | Some _ => Some (h, [ConsoleError "WebSocket error:"])
      | None => None
      end
  | WsClose s =>
      match sockets h !! s with
      | Some CLOSED | None => None
      | Some _ => Some (onclose (with_sockets h (<[s := CLOSED]> (sockets h))))
      end
  | Timeout t =>
      if bool_decide (t ∈ timers h)
      then Some (retry (with_timers h (cancel t (timers h))))
      else None
  end.

(** A run of events, collecting the effects. *)
Fixpoint run (h : State U) (evs : list Event) : option (State U * list Effect) :=
  match evs with
  | [] => Some (h, [])
  | e :: rest =>
      match step h e with
      | None => None
      | Some (h', effs) =>
          match run h' rest with
          | None => None
          | Some (h'', effs') => Some (h'', effs ++ effs')
          end
      end
  end.

(** The hook right after the component mounted. *)
Definition mounted (u : U) : State U := fst (mount (initial u)).

(** A socket is outstanding while it is opening or open. *)
Definition outstanding (r : ReadyState) : bool :=
  match r with CONNECTING | OPEN => true | _ => false end.

Definition outstanding_sockets (h : State U) : nat :=
  length (List.filter outstanding (sockets h)).

(** The two guards of [connect]. *)
Definition already_connected (h : State U) : bool :=
  match current_readyState h with Some OPEN => true | _ => false end.

Definition already_connecting (h : State U) : bool :=
  match current_readyState h with Some CONNECTING => true | _ => false end.

End UseWebSocket.

(** The hook as long as nobody tore it down: it is mounted, no socket is
    closing, the only socket that may be opening or open is the one in
    [wsRef], and the two state flags say what that socket is. *)
Definition steady {U} (h : State U) : Prop :=
  mountedRef h = true /\
  (forall s, sockets h !! s <> Some CLOSING) /\
  (forall s r, sockets h !! s = Some r -> outstanding r = true -> wsRef h = Some s) /\
  (isConnected h = true -> exists s, wsRef h = Some s /\ sockets h !! s = Some OPEN) /\
  (isConnecting h = true -> exists s, wsRef h = Some s /\ sockets h !! s = Some CONNECTING).

(** The hook once [disconnect] has won: nothing is pending, no socket is
    opening, and the counter sits at its maximum [n]. *)
Definition quiet {U} (n : Z) (h : State U) : Prop :=
  timers h = [] /\
  (forall s, sockets h !! s <> Some CONNECTING) /\
  reconnectAttemptsRef h = n.

(** Every pending timer is the one [reconnectTimeoutRef] holds, and while a
    timer is pending no socket is opening or open. *)
Definition tracked {U} (h : State U) : Prop :=
  (forall t, t ∈ timers h -> reconnectTimeoutRef h = Some t) /\
  (timers h <> [] -> forall s r, sockets h !! s = Some r -> outstanding r = false).

(** The hook after the cleanup of the mount effect. *)
Definition disposed {U} (h : State U) : Prop :=
  mountedRef h = false /\ wsRef h = None.

(** Effects that reach neither the network nor the caller: logging, and
    cancelling or closing what already exists. *)
Definition is_silent (e : Effect) : bool :=
  match e with
  | ConsoleLog _ | ConsoleWarn _ | ConsoleError _ | ClearTimeout _ | CloseSocket _ => true
  | _ => false
  end.


(** The frames of a run that decoded, in arrival order, and the arguments
    of the calls of the message callback, in call order. *)
Definition decoded_frames (evs : list Event) : list Inbound :=
  omap (fun e => match e with
                 | WsMessage _ Undecodable _ => None
                 | WsMessage _ data _ => Some data
                 | _ => None
                 end) evs.

Definition handler_calls (effs : list Effect) : list Inbound :=
  omap (fun e => match e with CallOnMessage m => Some m | _ => None end) effs.

Definition is_Unmount (e : Event) : bool :=
  match e with Unmount => true | _ => false end.


Definition is_SetTimeout (e : Effect) : bool :=
  match e with SetTimeout _ => true | _ => false end.

Definition is_NewWebSocket (e : Effect) : bool :=
  match e with NewWebSocket _ => true | _ => false end.

Definition is_CallOnMessage (e : Effect) : bool :=
  match e with CallOnMessage _ => true | _ => false end.

Definition is_CloseSocket (e : Effect) : bool :=
  match e with CloseSocket _ => true | _ => false end.

Definition is_Timeout (e : Event) : bool :=
  match e with Timeout _ => true | _ => false end.

Definition is_WsOpen (e : Event) : bool :=
  match e with WsOpen _ => true | _ => false end.

Definition is_Connect (e : Event) : bool :=
  match e with Connect => true | _ => false end.

Definition is_teardown (e : Event) : bool :=
  match e with Disconnect | Unmount => true | _ => false end.

Definition count {A} (p : A -> bool) (l : list A) : nat := length (List.filter p l).

End Hook.

(** ** The chat panel wired to the hook *)

Module App.

Definition WS_URL : string := "ws://localhost:8080".

(** The options [Chat.tsx] passes; interval and attempts are the defaults. *)
Definition options : Hook.UseWebSocketOptions Chat.State :=
  Hook.mkOptions WS_URL (Some Chat.handleWebSocketMessage) None
                 (Some Chat.onDisconnect) 3000 5.

(** The browser accepts the fixed URL. *)
Definition accepts (u : string) : bool := true.

Definition step := Hook.step accepts options.
Definition run := Hook.run accepts options.
Definition start (now : Z) : Hook.State Chat.State :=
  Hook.mounted accepts options (Chat.initial now).

(** The panel once its first socket is open. *)
Definition opened (now : Z) : Hook.State Chat.State :=
  match step (start now) (Hook.WsOpen 0) with
  | Some (h, _) => h
  | None => start now
  end.

(** The first socket fails, the user clicks reconnect while the retry is
    pending, the second socket fails as well, and the caller disconnects. *)
Definition two_failures_then_disconnect : list Hook.Event :=
  [Hook.WsClose 0; Hook.Connect; Hook.WsClose 1; Hook.Disconnect].



(** The caller disconnects an open socket and connects again; the close
    event of the first socket arrives after that, and then the second
    socket opens. *)
Definition late_close : list Hook.Event :=
  [Hook.WsOpen 0; Hook.Disconnect; Hook.Connect; Hook.WsClose 0; Hook.WsOpen 1].

(** [handleSend] of the panel.  [messageText] is the optional argument,
    [inputValue] the text of the input box; the result is the hook (with
    the panel state in it), the new text of the input box and the effects. *)
Definition handleSend (now : Z) (messageText : option string) (inputValue : string)
           (h : Hook.State Chat.State)
  : Hook.State Chat.State * string * list Hook.Effect :=
  let text := JsString.trim (match messageText with Some t => t | None => inputValue end) in
  if String.eqb text "" || Chat.isWaiting (Hook.ui h) then (h, inputValue, [])
  else if negb (Hook.isConnected h) then
    let '(h', effs) := Hook.connect accepts options h in (h', inputValue, effs)
  else
    let userMessage :=
      Chat.mkMessage ("user-" +:+ JsString.of_number now) Chat.user (Some text) now None None in
    let u := Hook.ui h in
    let h1 := Hook.with_ui h
                (Chat.mkState (Chat.messages u ++ [userMessage]) true
                              (Chat.thinkingText u) (Chat.currentAssistantIdRef u)) in
    let '(h2, effs, _) := Hook.sendMessage text h1 in
    (h2, "", effs).

End App.

(** * Properties *)

(** ** String helpers *)

Module JsStringFacts.
Import JsString.

Lemma split_space_nonempty (s : string) : split_space s <> [].
Proof.
  destruct s as [|c r]; simpl; [discriminate|].
  destruct (Ascii.eqb c " "); [discriminate|].
  destruct (split_space r); discriminate.
Qed.

Lemma append_cons (x : ascii) (a b : string) : String x a +:+ b = String x (a +:+ b).
Proof. reflexivity. Qed.

Lemma append_nil (b : string) : "" +:+ b = b.
Proof. reflexivity. Qed.

Lemma append_assoc (a b c : string) : (a +:+ b) +:+ c = a +:+ (b +:+ c).
Proof.
  induction a as [|x a IH]; [reflexivity|].
  now rewrite !append_cons, IH.
Qed.

Lemma append_empty_r (a : string) : a +:+ "" = a.
Proof.
  induction a as [|x a IH]; [reflexivity|].
  now rewrite append_cons, IH.
Qed.

Lemma concat_all_app (l1 l2 : list string) :
  concat_all (l1 ++ l2) = concat_all l1 +:+ concat_all l2.
Proof.
  induction l1 as [|x l1 IH]; [reflexivity|].
  change (x +:+ concat_all (l1 ++ l2) = (x +:+ concat_all l1) +:+ concat_all l2).
  now rewrite IH, append_assoc.
Qed.

(** Re-joining the words of [split(' ')], each followed by a space, gives
    the text followed by one more space. *)
Lemma concat_split_space (s : string) :
  concat_all (List.map (fun w => w +:+ " ") (split_space s)) = s +:+ " ".
Proof.
  induction s as [|c r IH]; [reflexivity|].
  simpl split_space. destruct (Ascii.eqb_spec c " ") as [->|Hc].
  - cbn [List.map].
    change (("" +:+ " ") +:+ concat_all (List.map (fun w => w +:+ " ") (split_space r))
            = String " " (r +:+ " ")).
    now rewrite IH.
  - pose proof (split_space_nonempty r) as Hne.
    destruct (split_space r) as [|w ws]; [congruence|].
    cbn [List.map] in *.
    change ((w +:+ " ") +:+ concat_all (List.map (fun w => w +:+ " ") ws) = r +:+ " ") in IH.
    change (String c ((w +:+ " ") +:+ concat_all (List.map (fun w => w +:+ " ") ws))
            = String c (r +:+ " ")).
    now rewrite IH.
Qed.

Lemma length_append (a b : string) :
  String.length (a +:+ b) = (String.length a + String.length b)%nat.
Proof.
  induction a as [|x a IH]; [reflexivity|].
  rewrite append_cons. cbn [String.length]. now rewrite IH.
Qed.

Lemma append_space_neq (s : string) : s +:+ " " <> s.
Proof.
  intros H. apply (f_equal String.length) in H.
  rewrite length_append in H. simpl in H. lia.
Qed.

End JsStringFacts.

(** ** The relay server *)

Module ServerFacts.
Import Wire Server.

Lemma send_open (ws : Socket) (f : Frame) :
  readyState ws = OPEN -> send ws f = mkSocket OPEN (outbox ws ++ [f]).
Proof. intros H. unfold send, sendSafe. now rewrite H. Qed.

Lemma send_silent (ws : Socket) (f : Frame) :
  readyState ws <> OPEN -> send ws f = ws.
Proof. intros H. unfold send, sendSafe. destruct (readyState ws); simpl; congruence. Qed.

Lemma send_words_open (words : list string) (ws : Socket) :
  readyState ws = OPEN ->
  send_words ws words =
  mkSocket OPEN (outbox ws ++ List.map (fun word => stream_frame (word +:+ " ")) words).
Proof.
  unfold send_words. revert ws.
  induction words as [|w words IH]; intros ws H; simpl.
  - rewrite app_nil_r. destruct ws; simpl in *; congruence.
  - rewrite IH by (rewrite send_open; auto).
    rewrite send_open by assumption. simpl. now rewrite <- app_assoc.
Qed.

Lemma forward_chunks_from (chunks : list string) (ws : Socket) (acc : string) :
  readyState ws = OPEN ->
  fold_left forward_chunk chunks (ws, acc) =
  (mkSocket OPEN (outbox ws ++ chunk_frames chunks),
   acc +:+ JsString.concat_all (List.filter nonempty chunks)).
Proof.
  revert ws acc. unfold chunk_frames.
  induction chunks as [|c chunks IH]; intros ws acc H.
  - simpl. rewrite app_nil_r. change (JsString.concat_all []) with "".
    rewrite JsStringFacts.append_empty_r. destruct ws; simpl in *; congruence.
  - cbn [fold_left]. destruct (String.eqb c "") eqn:E.
    + replace (forward_chunk (ws, acc) c) with (ws, acc)
        by (unfold forward_chunk; now rewrite E).
      replace (List.filter nonempty (c :: chunks)) with (List.filter nonempty chunks)
        by (cbn [List.filter]; unfold nonempty at 2; now rewrite E).
      now apply IH.
    + replace (forward_chunk (ws, acc) c) with (send ws (stream_frame c), acc +:+ c)
        by (unfold forward_chunk; now rewrite E).
      replace (List.filter nonempty (c :: chunks)) with (c :: List.filter nonempty chunks)
        by (cbn [List.filter]; unfold nonempty at 2; now rewrite E).
      rewrite IH by (rewrite send_open; auto).
      rewrite send_open by assumption. cbn [outbox List.map]. rewrite <- app_assoc.
      change (JsString.concat_all (c :: List.filter nonempty chunks))
        with (c +:+ JsString.concat_all (List.filter nonempty chunks)).
      now rewrite JsStringFacts.append_assoc.
Qed.

Lemma sendMockResponse_open (ws : Socket) (message : string) :
  readyState ws = OPEN ->
  sendMockResponse ws (Some message) =
  (mkSocket OPEN (outbox ws ++ mock_frames message), Normal).
Proof.
  intros H. unfold sendMockResponse, mock_frames, word_frames.
  rewrite (send_open ws) by assumption.
  rewrite send_words_open by reflexivity.
  rewrite send_open by reflexivity. simpl.
  now rewrite <- !app_assoc.
Qed.

Lemma streamGeminiResponse_open (m : Model) (ws : Socket) (message : string) :
  readyState ws = OPEN ->
  streamGeminiResponse m ws (Some message) =
  (mkSocket OPEN (outbox ws ++ gemini_frames (m (Some message)) message),
   gemini_completion (m (Some message))).
Proof.
  intros H. unfold streamGeminiResponse, gemini_frames, on_gemini_error.
  rewrite (send_open ws) by assumption.
  destruct (m (Some message)) as [| |chunks ending].
  - rewrite sendMockResponse_open by reflexivity. simpl. now rewrite <- app_assoc.
  - reflexivity.
  - unfold forward_chunks. rewrite forward_chunks_from by reflexivity.
    cbv beta iota. destruct ending.
    + rewrite send_open by reflexivity. simpl. now rewrite <- !app_assoc.
    + rewrite sendMockResponse_open by reflexivity. simpl. now rewrite <- !app_assoc.
    + simpl. now rewrite <- !app_assoc.
Qed.

(** A whole turn on an open socket: the frames of [turn_frames], in order;
    the body returns unless the upstream threw [null] or [undefined]. *)
Lemma handleChatMessage_open (g : Globals) (ws : Socket) (message : string) :
  readyState ws = OPEN ->
  handleChatMessage g ws (Some message) =
  (mkSocket OPEN (outbox ws ++ turn_frames g message), turn_completion g message).
Proof.
  intros H. unfold handleChatMessage, turn_frames, turn_completion, upstream_fails_nullish.
  rewrite (send_open ws) by assumption.
  destruct (useAI g), (model g) as [m|];
    rewrite ?streamGeminiResponse_open, ?sendMockResponse_open by reflexivity;
    cbn [outbox]; rewrite <- ?app_assoc; try reflexivity.
  cbn [app]. f_equal. now destruct (m (Some message)) as [| |chunks []].
Qed.

Lemma turn_completion_down (g : Globals) (message : string) :
  upstream_down g (Some message) = true -> turn_completion g message = Normal.
Proof.
  unfold upstream_down, turn_completion, upstream_fails_nullish.
  destruct (useAI g), (model g) as [m|]; try reflexivity.
  now destruct (m (Some message)) as [| |chunks []].
Qed.

Lemma send_words_silent (words : list string) (ws : Socket) :
  readyState ws <> OPEN -> send_words ws words = ws.
Proof.
  unfold send_words. induction words as [|w words IH]; intros H; [reflexivity|].
  cbn [fold_left]. rewrite send_silent by assumption. now apply IH.
Qed.

Lemma forward_chunks_silent (chunks : list string) (ws : Socket) (acc : string) :
  readyState ws <> OPEN -> fst (fold_left forward_chunk chunks (ws, acc)) = ws.
Proof.
  revert acc. induction chunks as [|c chunks IH]; intros acc H; [reflexivity|].
  cbn [fold_left]. destruct (String.eqb c "") eqn:E.
  - replace (forward_chunk (ws, acc) c) with (ws, acc)
      by (unfold forward_chunk; now rewrite E).
    now apply IH.
  - replace (forward_chunk (ws, acc) c) with (ws, acc +:+ c)
      by (unfold forward_chunk; rewrite E; cbn [fst snd]; now rewrite send_silent).
    now apply IH.
Qed.

Lemma sendMockResponse_silent (ws : Socket) (userMessage : option string) :
  readyState ws <> OPEN -> fst (sendMockResponse ws userMessage) = ws.
Proof.
  intros H. unfold sendMockResponse. rewrite send_silent by assumption.
  destruct userMessage; simpl; [|reflexivity].
  rewrite send_words_silent by assumption. now rewrite send_silent.
Qed.

(** On a socket that is not open a turn sends nothing. *)
Lemma handleChatMessage_silent (g : Globals) (ws : Socket) (userMessage : option string) :
  readyState ws <> OPEN -> fst (handleChatMessage g ws userMessage) = ws.
Proof.
  intros H. unfold handleChatMessage. rewrite send_silent by assumption.
  destruct (useAI g), (model g) as [m|]; try now apply sendMockResponse_silent.
  unfold streamGeminiResponse. rewrite send_silent by assumption.
  unfold on_gemini_error.
  destruct (m userMessage) as [| |chunks ending];
    [now apply sendMockResponse_silent | reflexivity |].
  unfold forward_chunks.
  pose proof (forward_chunks_silent chunks ws "" H) as Hf.
  destruct (fold_left forward_chunk chunks (ws, "")) as [ws' full]. simpl in Hf. subst ws'.
  destruct ending;
    [simpl; now rewrite send_silent | now apply sendMockResponse_silent | reflexivity].
Qed.

Lemma emitted_app (ws : Socket) (r : ReadyState) (l : list Frame) :
  emitted ws (mkSocket r (outbox ws ++ l)) = l.
Proof. unfold emitted. simpl. now rewrite drop_app_length. Qed.

Lemma emitted_same (ws : Socket) : emitted ws ws = [].
Proof. unfold emitted. now rewrite drop_all. Qed.

Lemma frames_of_type_app (t : string) (l1 l2 : list Frame) :
  frames_of_type t (l1 ++ l2) = frames_of_type t l1 ++ frames_of_type t l2.
Proof. apply List.filter_app. Qed.

Lemma frames_of_type_streams {A} (f : A -> string) (t : string) (xs : list A) :
  frames_of_type t (List.map (fun x => stream_frame (f x)) xs) =
  if String.eqb "stream" t then List.map (fun x => stream_frame (f x)) xs else [].
Proof.
  assert (Hh : forall y, has_type t (stream_frame y) = String.eqb "stream" t)
    by reflexivity.
  unfold frames_of_type.
  induction xs as [|x xs IH]; cbn [List.map List.filter].
  - now destruct (String.eqb "stream" t).
  - rewrite Hh, IH. now destruct (String.eqb "stream" t).
Qed.

Lemma frames_of_type_word_frames (t response : string) :
  frames_of_type t (word_frames response) =
  if String.eqb "stream" t then word_frames response else [].
Proof. apply (frames_of_type_streams (fun w => w +:+ " ")). Qed.

Lemma frames_of_type_chunk_frames (t : string) (chunks : list string) :
  frames_of_type t (chunk_frames chunks) =
  if String.eqb "stream" t then chunk_frames chunks else [].
Proof. apply (frames_of_type_streams (fun x => x)). Qed.

Lemma streamed_text_app (l1 l2 : list Frame) :
  streamed_text (l1 ++ l2) = streamed_text l1 +:+ streamed_text l2.
Proof.
  unfold streamed_text. rewrite frames_of_type_app, List.map_app.
  apply JsStringFacts.concat_all_app.
Qed.

Lemma streamed_text_streams {A} (f : A -> string) (xs : list A) :
  streamed_text (List.map (fun x => stream_frame (f x)) xs) =
  JsString.concat_all (List.map f xs).
Proof.
  unfold streamed_text. rewrite frames_of_type_streams. simpl.
  rewrite List.map_map. reflexivity.
Qed.

Lemma streamed_text_word_frames (response : string) :
  streamed_text (word_frames response) = response +:+ " ".
Proof.
  unfold word_frames. rewrite (streamed_text_streams (fun w => w +:+ " ")).
  apply JsStringFacts.concat_split_space.
Qed.

Lemma streamed_text_chunk_frames (chunks : list string) :
  streamed_text (chunk_frames chunks) = JsString.concat_all (List.filter nonempty chunks).
Proof.
  unfold chunk_frames. rewrite (streamed_text_streams (fun x => x)).
  now rewrite List.map_id.
Qed.

Lemma streamed_text_mock_frames (message : string) :
  streamed_text (mock_frames message) = getMockResponse message +:+ " ".
Proof.
  unfold mock_frames.
  change (thinking_done_frame :: ?l) with ([thinking_done_frame] ++ l).
  rewrite !streamed_text_app, streamed_text_word_frames.
  change (streamed_text [thinking_done_frame]) with "".
  change (streamed_text [done_frame _]) with "".
  now rewrite JsStringFacts.append_empty_r.
Qed.

(** In the fallback path the [stream] frames spell the response followed by
    a space, while [done] carries the response itself. *)
Lemma fallback_turn_text (ws : Socket) (message : string) :
  readyState ws = OPEN ->
  let out := emitted ws (fst (handleChatMessage demo_mode ws (Some message))) in
  frames_of_type "done" out = [done_frame (getMockResponse message)] /\
  streamed_text out = getMockResponse message +:+ " ".
Proof.
  intros H. cbv zeta. rewrite handleChatMessage_open by assumption.
  cbn [fst]. rewrite emitted_app. unfold turn_frames, demo_mode. cbn [useAI model].
  split.
  - unfold mock_frames.
    change (thinking_frame :: thinking_done_frame :: ?l)
      with ([thinking_frame; thinking_done_frame] ++ l).
    rewrite !frames_of_type_app, frames_of_type_word_frames. reflexivity.
  - change (thinking_frame :: ?l) with ([thinking_frame] ++ l).
    rewrite streamed_text_app, streamed_text_mock_frames. reflexivity.
Qed.

(** In the upstream path that runs to the end, [done] carries exactly the
    text of the [stream] frames. *)
Lemma upstream_turn_text (m : Model) (ws : Socket) (message : string) (chunks : list string) :
  readyState ws = OPEN ->
  m (Some message) = Streams chunks Exhausted ->
  let out := emitted ws (fst (handleChatMessage (mkGlobals true (Some m)) ws (Some message))) in
  frames_of_type "done" out = [done_frame (streamed_text out)].
Proof.
  intros H Hm. cbv zeta. rewrite handleChatMessage_open by assumption.
  cbn [fst]. rewrite emitted_app. unfold turn_frames, gemini_frames. cbn [useAI model].
  rewrite Hm.
  change (thinking_frame :: thinking_done_frame :: ?l)
    with ([thinking_frame; thinking_done_frame] ++ l).
  rewrite !frames_of_type_app, frames_of_type_chunk_frames.
  rewrite !streamed_text_app, streamed_text_chunk_frames.
  change (streamed_text [thinking_frame; thinking_done_frame]) with "".
  change (streamed_text [done_frame _]) with "".
  rewrite JsStringFacts.append_empty_r. reflexivity.
Qed.

(** C1, evaluated on the code: with no upstream configured, the turn for
    the message [hi] ends with one [done] frame carrying the greeting, but
    the [stream] frames of the turn spell the greeting followed by a space,
    which is a different text. *)
Theorem fallback_done_is_not_the_streamed_text :
  let out := emitted accepted (fst (handleChatMessage demo_mode accepted (Some "hi"))) in
  frames_of_type "done" out = [done_frame greeting] /\
  streamed_text out = greeting +:+ " " /\
  streamed_text out <> greeting.
Proof.
  cbv zeta.
  destruct (fallback_turn_text accepted "hi" eq_refl) as [Hd Hs].
  change (getMockResponse "hi") with greeting in Hd, Hs.
  split; [exact Hd | split; [exact Hs |]].
  rewrite Hs. apply JsStringFacts.append_space_neq.
Qed.

Lemma frames_of_type_cons (t : string) (f : Frame) (l : list Frame) :
  frames_of_type t (f :: l) =
  (if String.eqb (type f) t then [f] else []) ++ frames_of_type t l.
Proof.
  unfold frames_of_type. cbn [List.filter]. unfold has_type at 1.
  now destruct (String.eqb (type f) t).
Qed.

(** A turn sends [thinking_done] once, and a second time when the upstream
    call was made and failed. *)
Lemma thinking_done_frames_of_turn (g : Globals) (message : string) :
  frames_of_type "thinking_done" (turn_frames g message) =
  replicate (if upstream_attempt_failed g (Some message) then 2 else 1) thinking_done_frame.
Proof.
  unfold turn_frames, upstream_attempt_failed, gemini_frames, mock_frames.
  destruct (useAI g), (model g) as [m|];
    try destruct (m (Some message)) as [| |chunks []];
    rewrite ?frames_of_type_cons, ?frames_of_type_app, ?frames_of_type_cons,
      ?frames_of_type_app, ?frames_of_type_cons,
      ?frames_of_type_word_frames, ?frames_of_type_chunk_frames;
    reflexivity.
Qed.

Lemma no_error_frame_in_turn (g : Globals) (message : string) :
  frames_of_type "error" (turn_frames g message) = [].
Proof.
  unfold turn_frames, gemini_frames, mock_frames.
  destruct (useAI g), (model g) as [m|];
    try destruct (m (Some message)) as [| |chunks []];
    rewrite ?frames_of_type_cons, ?frames_of_type_app, ?frames_of_type_cons,
      ?frames_of_type_app, ?frames_of_type_cons,
      ?frames_of_type_word_frames, ?frames_of_type_chunk_frames;
    reflexivity.
Qed.

Lemma word_frames_nonempty (response : string) : word_frames response <> [].
Proof.
  unfold word_frames. pose proof (JsStringFacts.split_space_nonempty response).
  destruct (JsString.split_space response); [congruence | discriminate].
Qed.

(** On an open socket a turn carries [thinking_done] twice exactly when the
    upstream call was made and failed, and once otherwise. *)
Lemma thinking_done_count (g : Globals) (ws : Socket) (message : string) :
  readyState ws = OPEN ->
  length (frames_of_type "thinking_done"
            (emitted ws (fst (handleChatMessage g ws (Some message))))) =
  if upstream_attempt_failed g (Some message) then 2 else 1.
Proof.
  intros H. rewrite handleChatMessage_open by assumption.
  cbn [fst]. rewrite emitted_app, thinking_done_frames_of_turn.
  now destruct (upstream_attempt_failed g (Some message)).
Qed.

(** C3, evaluated on the code: when the upstream call is rejected the turn
    carries [thinking_done] twice, and when the upstream stream raises
    after a chunk the second [thinking_done] follows a [stream] frame. *)
Theorem fallback_after_upstream_failure_repeats_thinking_done :
  types_of (emitted accepted (fst (handleChatMessage rejecting accepted (Some "thanks")))) =
    ["thinking"; "thinking_done"; "thinking_done";
     "stream"; "stream"; "stream"; "stream"; "stream"; "stream";
     "stream"; "stream"; "stream"; "stream"; "stream"; "done"] /\
  types_of (emitted accepted (fst (handleChatMessage breaking accepted (Some "thanks")))) =
    ["thinking"; "thinking_done"; "stream"; "thinking_done";
     "stream"; "stream"; "stream"; "stream"; "stream"; "stream";
     "stream"; "stream"; "stream"; "stream"; "stream"; "done"].
Proof. split; vm_compute; reflexivity. Qed.

(** C4, on the code: every turn on an open socket sends a [thinking_done]
    frame, and no [thinking_done] frame of a turn has a [content] field. *)
Theorem thinking_done_frames_lack_content (g : Globals) (ws : Socket) (message : string) :
  readyState ws = OPEN ->
  let out := emitted ws (fst (handleChatMessage g ws (Some message))) in
  frames_of_type "thinking_done" out <> [] /\
  Forall (fun f => content f = None) (frames_of_type "thinking_done" out).
Proof.
  intros H. cbv zeta. rewrite handleChatMessage_open by assumption.
  cbn [fst]. rewrite emitted_app, thinking_done_frames_of_turn.
  split.
  - destruct (upstream_attempt_failed g (Some message)); discriminate.
  - apply Forall_replicate. reflexivity.
Qed.

Lemma thinking_done_frames_lack_content_witness :
  readyState accepted = OPEN /\
  frames_of_type "thinking_done"
    (emitted accepted (fst (handleChatMessage demo_mode accepted (Some "hi")))) <> [] /\
  Forall (fun f => content f = None)
    (frames_of_type "thinking_done"
       (emitted accepted (fst (handleChatMessage demo_mode accepted (Some "hi"))))).
Proof.
  split; [reflexivity|].
  apply (thinking_done_frames_lack_content demo_mode accepted "hi"). reflexivity.
Defined.

(** Whenever the upstream service is unavailable, or its call fails with
    an error the [catch] block can report, a chat message with a text on an
    open socket is answered without an exception and without an [error]
    frame; the turn ends with the words of the fallback response as
    [stream] frames, at least one, followed by [done]. *)
Theorem upstream_failure_is_absorbed (g : Globals) (ws : Socket) (message : string) :
  readyState ws = OPEN ->
  upstream_down g (Some message) = true ->
  let ws' := onMessage g ws (Decoded (Some "chat") (Some message)) in
  snd (handleChatMessage g ws (Some message)) = Normal /\
  frames_of_type "error" (emitted ws ws') = [] /\
  word_frames (getMockResponse message) <> [] /\
  exists earlier,
    emitted ws ws' =
    earlier ++ word_frames (getMockResponse message)
            ++ [done_frame (getMockResponse message)].
Proof.
  intros H Hdown. cbv zeta. unfold onMessage.
  change (String.eqb "chat" "chat") with true. cbv iota.
  rewrite handleChatMessage_open by assumption. cbn [snd].
  rewrite turn_completion_down by assumption.
  rewrite emitted_app.
  split; [reflexivity|]. split; [apply no_error_frame_in_turn|].
  split; [apply word_frames_nonempty|].
  unfold upstream_down in Hdown. unfold turn_frames, gemini_frames, mock_frames.
  destruct (useAI g), (model g) as [m|];
    try (exists [thinking_frame; thinking_done_frame]; reflexivity).
  destruct (m (Some message)) as [| |chunks []]; try discriminate.
  - exists [thinking_frame; thinking_done_frame; thinking_done_frame]. reflexivity.
  - exists ([thinking_frame; thinking_done_frame] ++ chunk_frames chunks ++ [thinking_done_frame]).
    cbn [app]. rewrite <- !app_assoc. reflexivity.
Qed.

Lemma upstream_failure_is_absorbed_witness :
  readyState accepted = OPEN /\
  upstream_down breaking (Some "weather") = true /\
  snd (handleChatMessage breaking accepted (Some "weather")) = Normal /\
  frames_of_type "error"
    (emitted accepted (onMessage breaking accepted (Decoded (Some "chat") (Some "weather")))) = [] /\
  word_frames (getMockResponse "weather") <> [] /\
  exists earlier,
    emitted accepted (onMessage breaking accepted (Decoded (Some "chat") (Some "weather"))) =
    earlier ++ word_frames (getMockResponse "weather")
            ++ [done_frame (getMockResponse "weather")].
Proof.
  split; [reflexivity|]. split; [reflexivity|].
  apply (upstream_failure_is_absorbed breaking accepted "weather"); reflexivity.
Defined.


End ServerFacts.

(** ** The chat panel *)

Module ChatFacts.
Import Wire Chat.

Lemma or_else_empty (s : string) : JsString.or_else (Some s) "" = s.
Proof. unfold JsString.or_else. destruct (String.eqb_spec s ""); congruence. Qed.

Lemma is_current_self (i : string) (msg : Message) :
  id msg = i -> is_current (Some i) msg = true.
Proof. intros <-. apply String.eqb_refl. Qed.

Lemma first_fragment_opens (now : Z) (text : string) (st : State) :
  currentAssistantIdRef st = None ->
  streaming ("assistant-" +:+ JsString.of_number now) text now (length (messages st))
            (on_stream now (Some text) st).
Proof.
  intros H. unfold on_stream. rewrite H. cbn [JsString.truthy negb].
  repeat split. exists (messages st). split; reflexivity.
Qed.

Lemma next_fragment_appends (i text : string) (since now : Z) (n : nat)
      (fragment : string) (st : State) :
  streaming i text since n st ->
  streaming i (text +:+ fragment) since n (on_stream now (Some fragment) st).
Proof.
  intros (Href & Htruthy & earlier & Hlen & Hmsgs).
  unfold on_stream. rewrite Href, Htruthy. cbn [negb].
  split; [reflexivity|]. split; [assumption|].
  exists (List.map (fun msg => if is_current (Some i) msg
                               then append_fragment (Some fragment) msg else msg) earlier).
  split; [now rewrite List.length_map|].
  cbn [messages]. rewrite Hmsgs, List.map_app. cbn [List.map].
  rewrite is_current_self by reflexivity.
  unfold append_fragment. cbn [id type content timestamp isStreaming displayContent].
  rewrite or_else_empty. reflexivity.
Qed.

Lemma deliver_app (now : Z) (l1 l2 : list Inbound) (st : State) :
  deliver now (l1 ++ l2) st = deliver (now + Z.of_nat (length l1)) l2 (deliver now l1 st).
Proof.
  revert now st. induction l1 as [|f l1 IH]; intros now st.
  - simpl. now rewrite Z.add_0_r.
  - cbn [app deliver length]. rewrite IH. f_equal. lia.
Qed.

(** C10: a [done] frame that arrives while no assistant message is in
    progress leaves the message list as it is, creates no message, and
    clears the thinking text and the waiting flag; so does a whole turn
    without [stream] frames. *)
Theorem done_without_stream_keeps_messages (now : Z) (c text : option string) (st : State) :
  currentAssistantIdRef st = None ->
  handleWebSocketMessage now (done_of c) st = (mkState (messages st) false None None, Normal) /\
  deliver now [Decoded (Some "thinking") text; Decoded (Some "thinking_done") None; done_of c] st
    = mkState (messages st) false None None.
Proof.
  intros H. split.
  - cbn. unfold on_done. rewrite H. reflexivity.
  - cbn. unfold on_done. cbn. rewrite H. reflexivity.
Qed.

Lemma done_without_stream_keeps_messages_witness :
  currentAssistantIdRef (initial 0) = None /\
  handleWebSocketMessage 5 (done_of (Some "")) (initial 0) =
    (mkState (messages (initial 0)) false None None, Normal).
Proof.
  split; [reflexivity|].
  apply (done_without_stream_keeps_messages 5 (Some "") None (initial 0)). reflexivity.
Defined.

End ChatFacts.

(** ** The chat panel with the updater queue *)

Module PanelFacts.
Import Wire Panel.

Local Abbreviation benign :=
  (fun f : Frame => f = Server.thinking_frame \/ f = Server.thinking_done_frame \/
                    exists t, f = Server.stream_frame t).

Lemma play_app (a b : list Step) (p : State) : play (a ++ b) p = play b (play a p).
Proof. apply fold_left_app. Qed.

Lemma play_cons (s : Step) (l : list Step) (p : State) : play (s :: l) p = play l (step p s).
Proof. reflexivity. Qed.

(** With the ref at [null] the two updaters that look for the current
    message find none. *)
Lemma no_current (f : Chat.Message -> Chat.Message) (prev : list Chat.Message) :
  List.map (fun msg => if Chat.is_current None msg then f msg else msg) prev = prev.
Proof.
  induction prev as [|m prev IH]; [reflexivity|].
  cbn [List.map Chat.is_current]. f_equal. exact IH.
Qed.

(** [Chat] is [Panel] with a render after the event. *)
Lemma chat_renders_after_each_event (now : Z) (message : Inbound) (st : Chat.State) :
  render (fst (handleWebSocketMessage now message (resting st)))
    = resting (fst (Chat.handleWebSocketMessage now message st)) /\
  snd (handleWebSocketMessage now message (resting st))
    = snd (Chat.handleWebSocketMessage now message st).
Proof.
  destruct st as [msgs w th ref].
  destruct message as [| |[t|] c]; try (split; reflexivity).
  cbn [handleWebSocketMessage Chat.handleWebSocketMessage].
  destruct (String.eqb t "connected"); [split; reflexivity|].
  destruct (String.eqb t "thinking"); [split; reflexivity|].
  destruct (String.eqb t "thinking_done"); [split; reflexivity|].
  destruct (String.eqb t "stream").
  { unfold on_stream, Chat.on_stream, resting.
    cbn [shown pending Chat.currentAssistantIdRef Chat.messages Chat.isWaiting].
    destruct (JsString.truthy ref); split; reflexivity. }
  destruct (String.eqb t "done").
  { unfold on_done, Chat.on_done, resting.
    cbn [shown pending Chat.currentAssistantIdRef Chat.messages Chat.isWaiting].
    destruct (JsString.truthy ref); split; reflexivity. }
  destruct (String.eqb t "error"); split; reflexivity.
Qed.

(** So [Chat.deliver] is the queue played with a render after every
    frame. *)
Lemma deliver_is_play (frames : list Inbound) (now : Z) (st : Chat.State) :
  play (scheduled now frames (replicate (length frames) true)) (resting st)
    = resting (Chat.deliver now frames st).
Proof.
  revert now st. induction frames as [|f frames IH]; intros now st; [reflexivity|].
  cbn [length replicate scheduled hd tl app Chat.deliver]. rewrite !play_cons.
  cbn [step]. rewrite (proj1 (chat_renders_after_each_event now f st)). apply IH.
Qed.

(** *** A turn in progress, one step at a time *)

Lemma streaming_render (i text : string) (since : Z) (n : nat) (p : State) :
  streaming i text since n p -> streaming i text since n (render p).
Proof. intros H. exact H. Qed.

Lemma streaming_thinking (i text : string) (since : Z) (n : nat) (p : State)
      (c : option string) :
  streaming i text since n p ->
  streaming i text since n
    (mkState (Chat.mkState (Chat.messages (shown p)) (Chat.isWaiting (shown p)) c
                           (Chat.currentAssistantIdRef (shown p)))
             (pending p)).
Proof. intros H. exact H. Qed.

Lemma streaming_fragment (i text : string) (since now : Z) (n : nat) (fragment : string)
      (p : State) :
  streaming i text since n p ->
  streaming i (text +:+ fragment) since n (on_stream now (Some fragment) p).
Proof.
  intros (Href & Htruthy & earlier & Hlen & Hmsgs).
  unfold on_stream. cbv zeta. rewrite Href, Htruthy. cbn [negb].
  split; [reflexivity|]. split; [assumption|].
  exists (List.map (fun msg => if Chat.is_current (Some i) msg
                               then Chat.append_fragment (Some fragment) msg else msg) earlier).
  split; [now rewrite List.length_map|].
  unfold settled in *. cbn [shown pending Chat.currentAssistantIdRef Chat.messages].
  rewrite Href in Hmsgs. rewrite fold_left_app, Hmsgs. cbn [fold_left run_updater].
  rewrite List.map_app. cbn [List.map].
  rewrite ChatFacts.is_current_self by reflexivity.
  unfold Chat.append_fragment.
  cbn [Chat.id Chat.type Chat.content Chat.timestamp Chat.isStreaming Chat.displayContent].
  rewrite ChatFacts.or_else_empty. reflexivity.
Qed.

Lemma idle_first_fragment (msgs : list Chat.Message) (now : Z) (fragment : string) (p : State) :
  idle msgs p ->
  streaming ("assistant-" +:+ JsString.of_number now) fragment now (length msgs)
            (on_stream now (Some fragment) p).
Proof.
  intros (Href & Hq & Hmsgs). unfold on_stream. cbv zeta. rewrite Href, Hq.
  cbn [JsString.truthy negb]. split; [reflexivity|]. split; [reflexivity|].
  exists msgs. split; [reflexivity|].
  unfold settled. cbn [shown pending app fold_left run_updater Chat.messages].
  now rewrite Hmsgs.
Qed.

Lemma idle_render (msgs : list Chat.Message) (p : State) : idle msgs p -> idle msgs (render p).
Proof.
  intros (Href & Hq & Hmsgs). unfold idle, render, settled. rewrite Hq. cbn.
  now split_and!.
Qed.

Lemma streaming_maybe_render (b : bool) (i text : string) (since : Z) (n : nat) (p : State) :
  streaming i text since n p ->
  streaming i text since n (play (if b then [Render] else []) p).
Proof. destruct b; [apply streaming_render | trivial]. Qed.

Lemma idle_maybe_render (b : bool) (msgs : list Chat.Message) (p : State) :
  idle msgs p -> idle msgs (play (if b then [Render] else []) p).
Proof. destruct b; [apply idle_render | trivial]. Qed.

(** *** The frames between [thinking] and the closing frame *)

Lemma streamed_text_cons_stream (t : string) (l : list Frame) :
  Server.streamed_text (Server.stream_frame t :: l) = t +:+ Server.streamed_text l.
Proof. reflexivity. Qed.

Lemma body_while_streaming (body : list Frame) (renders : list bool) (i text : string)
      (since now : Z) (n : nat) (p : State) :
  Forall benign body ->
  streaming i text since n p ->
  streaming i (text +:+ Server.streamed_text body) since n
            (play (scheduled now (List.map on_the_wire body) renders) p).
Proof.
  intros Hb. revert renders text now p.
  induction Hb as [|f body Hf Hb IH]; intros renders text now p Hst.
  - cbn [List.map scheduled]. change (Server.streamed_text []) with "".
    now rewrite JsStringFacts.append_empty_r.
  - cbn [List.map scheduled]. rewrite play_cons, play_app.
    destruct Hf as [->|[->|[t ->]]].
    + change (Server.streamed_text (Server.thinking_frame :: body))
        with (Server.streamed_text body).
      apply IH, streaming_maybe_render. now apply streaming_thinking.
    + change (Server.streamed_text (Server.thinking_done_frame :: body))
        with (Server.streamed_text body).
      apply IH, streaming_maybe_render. exact Hst.
    + rewrite streamed_text_cons_stream, <- JsStringFacts.append_assoc.
      apply IH, streaming_maybe_render.
      exact (streaming_fragment i text since now n t p Hst).
Qed.

Lemma body_from_idle (body : list Frame) (renders : list bool) (now : Z)
      (msgs : list Chat.Message) (p : State) :
  Forall benign body ->
  idle msgs p ->
  let p' := play (scheduled now (List.map on_the_wire body) renders) p in
  (frames_of_type "stream" body = [] /\ idle msgs p') \/
  (frames_of_type "stream" body <> [] /\
   exists i since, streaming i (Server.streamed_text body) since (length msgs) p').
Proof.
  intros Hb. revert renders now p.
  induction Hb as [|f body Hf Hb IH]; intros renders now p Hidle; cbv zeta.
  - left. split; [reflexivity | exact Hidle].
  - cbn [List.map scheduled]. rewrite play_cons, play_app.
    destruct Hf as [->|[->|[t ->]]].
    + change (Server.streamed_text (Server.thinking_frame :: body))
        with (Server.streamed_text body).
      apply IH, idle_maybe_render. exact Hidle.
    + change (Server.streamed_text (Server.thinking_done_frame :: body))
        with (Server.streamed_text body).
      apply IH, idle_maybe_render. exact Hidle.
    + right. split; [rewrite ServerFacts.frames_of_type_cons; discriminate|].
      rewrite streamed_text_cons_stream. eexists _, _.
      apply body_while_streaming; [exact Hb|]. apply streaming_maybe_render.
      exact (idle_first_fragment msgs now t p Hidle).
Qed.

(** *** The closing [done], handled after a render *)

Lemma done_while_streaming (i text : string) (since : Z) (n : nat) (p : State)
      (now : Z) (final : option string) :
  streaming i text since n p ->
  let p' := play [Render; Handle now (Chat.done_of final); Render] p in
  pending p' = [] /\
  Chat.currentAssistantIdRef (shown p') = None /\
  Chat.isWaiting (shown p') = false /\
  Chat.thinkingText (shown p') = None /\
  exists earlier current,
    length earlier = n /\
    Chat.messages (shown p') = earlier ++ [current] /\
    Chat.id current = i /\
    Chat.type current = Chat.assistant /\
    Chat.content current = Some text /\
    Chat.displayContent current = Some text.
Proof.
  intros (Href & Htruthy & earlier & Hlen & Hmsgs). cbv zeta.
  unfold play. cbn [fold_left step].
  change (fst (handleWebSocketMessage now (Chat.done_of final) (render p)))
    with (on_done (render p)).
  unfold on_done. cbv zeta. cbn [render shown pending Chat.currentAssistantIdRef].
  rewrite Href, Htruthy.
  unfold render, settled.
  cbn [shown pending app fold_left run_updater Chat.currentAssistantIdRef Chat.messages
       Chat.isWaiting Chat.thinkingText].
  rewrite no_current. fold (settled p). rewrite Hmsgs.
  split_and!; try reflexivity.
  eexists earlier, _. split_and!; [exact Hlen | reflexivity | reflexivity..].
Qed.

Lemma done_while_idle (msgs : list Chat.Message) (p : State) (now : Z)
      (final : option string) :
  idle msgs p ->
  let p' := play [Render; Handle now (Chat.done_of final); Render] p in
  idle msgs p' /\ Chat.isWaiting (shown p') = false /\ Chat.thinkingText (shown p') = None.
Proof.
  intros (Href & Hq & Hmsgs). cbv zeta. unfold play. cbn [fold_left step].
  change (fst (handleWebSocketMessage now (Chat.done_of final) (render p)))
    with (on_done (render p)).
  unfold on_done, idle. cbv zeta. cbn [render shown pending Chat.currentAssistantIdRef].
  rewrite Href. cbn [JsString.truthy].
  unfold render, settled. rewrite Hq.
  cbn [shown pending fold_left Chat.currentAssistantIdRef Chat.messages
       Chat.isWaiting Chat.thinkingText].
  now split_and!.
Qed.

Lemma stream_of_on_the_wire (fragments : list string) :
  List.map Chat.stream_of fragments
    = List.map on_the_wire (List.map Server.stream_frame fragments).
Proof. now rewrite List.map_map. Qed.

Lemma all_stream_frames (fragments : list string) :
  Forall benign (List.map Server.stream_frame fragments).
Proof.
  apply Forall_forall. intros f Hf. apply list_elem_of_In, in_map_iff in Hf.
  destruct Hf as (t & <- & _). right. right. now exists t.
Qed.

(** When [done] is handled its updater is queued and the ref is set to
    [null]; at the next render the updater compares every message with
    [null] and changes none.  So after [done] the message of the turn is
    still marked as streaming, with the text it had.  The same happens to a
    fragment that is handled after the last render and before [done]: its
    updater finds no current message either, and the fragment is not
    appended. *)
Theorem done_finds_no_current_message (i text : string) (since : Z) (n : nat) (p : State)
        (now now_done : Z) (fragment : string) (final : option string) :
  streaming i text since n p ->
  let unchanged := Chat.mkMessage i Chat.assistant (Some text) since (Some true) (Some text) in
  let p1 := play [Render; Handle now_done (Chat.done_of final); Render] p in
  let p2 := play [Render; Handle now (Chat.stream_of fragment);
                  Handle now_done (Chat.done_of final); Render] p in
  last (Chat.messages (shown p1)) = Some unchanged /\
  Chat.currentAssistantIdRef (shown p1) = None /\
  Chat.isWaiting (shown p1) = false /\
  p2 = p1.
Proof.
  intros (Href & Htruthy & earlier & Hlen & Hmsgs). cbv zeta.
  unfold play. cbn [fold_left step].
  change (fst (handleWebSocketMessage now_done (Chat.done_of final) ?q)) with (on_done q).
  change (fst (handleWebSocketMessage now (Chat.stream_of fragment) ?q))
    with (on_stream now (Some fragment) q).
  unfold on_stream, on_done. cbv zeta. cbn [render shown pending Chat.currentAssistantIdRef].
  rewrite Href, Htruthy. cbn [negb shown pending Chat.currentAssistantIdRef].
  rewrite Htruthy.
  unfold render, settled.
  cbn [shown pending app fold_left run_updater Chat.currentAssistantIdRef Chat.messages
       Chat.isWaiting Chat.thinkingText].
  rewrite !no_current. fold (settled p). rewrite Hmsgs, last_snoc.
  split_and!; reflexivity.
Qed.

Lemma done_finds_no_current_message_witness :
  exists p,
    p = play [Handle 7 (Chat.stream_of "Hel")] (resting (Chat.initial 0)) /\
    streaming "assistant-7" "Hel" 7 1 p /\
    last (Chat.messages (shown
           (play [Render; Handle 9 (Chat.done_of (Some "Hello")); Render] p))) =
      Some (Chat.mkMessage "assistant-7" Chat.assistant (Some "Hel") 7 (Some true) (Some "Hel")) /\
    play [Render; Handle 8 (Chat.stream_of "lo"); Handle 9 (Chat.done_of (Some "Hello")); Render] p
      = play [Render; Handle 9 (Chat.done_of (Some "Hello")); Render] p.
Proof.
  eexists. split; [reflexivity|].
  assert (Hst : streaming "assistant-7" "Hel" 7 1
                  (play [Handle 7 (Chat.stream_of "Hel")] (resting (Chat.initial 0)))).
  { split; [reflexivity|]. split; [reflexivity|].
    exists [Chat.mkMessage "welcome" Chat.assistant
              (Some (Chat.wave +:+ " Hi! How can we help?")) 0 None None].
    split; reflexivity. }
  split; [exact Hst|].
  destruct (done_finds_no_current_message "assistant-7" "Hel" 7 1 _ 8 9 "lo" (Some "Hello") Hst)
    as (H1 & _ & _ & H2).
  split; [exact H1 | exact H2].
Defined.

(** C2, as the code has it by design: from a panel with no turn in
    progress and nothing queued, the [stream] frames of a turn, with React
    rendering wherever it likes between them and once more before [done] is
    handled, followed by [done] and a render, leave one new assistant
    message at the end of the list, named after the clock reading of the
    first fragment, whose [content] and [displayContent] are the fragments
    joined as they came, with nothing put between them; the content of the
    [done] frame is not used. *)
Theorem streamed_fragments_are_concatenated (now : Z) (p : State) (first : string)
        (rest : list string) (renders : list bool) (now_done : Z) (final : option string) :
  Chat.currentAssistantIdRef (shown p) = None ->
  pending p = [] ->
  let p' := play (scheduled now (List.map Chat.stream_of (first :: rest)) renders
                    ++ [Render; Handle now_done (Chat.done_of final); Render]) p in
  let text := JsString.concat_all (first :: rest) in
  pending p' = [] /\
  Chat.currentAssistantIdRef (shown p') = None /\
  length (Chat.messages (shown p')) = S (length (Chat.messages (shown p))) /\
  exists m,
    last (Chat.messages (shown p')) = Some m /\
    Chat.id m = "assistant-" +:+ JsString.of_number now /\
    Chat.type m = Chat.assistant /\
    Chat.content m = Some text /\
    Chat.displayContent m = Some text.
Proof.
  intros Href Hq. cbv zeta. rewrite play_app.
  cbn [List.map scheduled].
  rewrite (play_cons (Handle now (Chat.stream_of first))), play_app.
  assert (Hidle : idle (Chat.messages (shown p)) p) by now split_and!.
  pose proof (idle_first_fragment _ now first p Hidle) as H1.
  apply (streaming_maybe_render (hd false renders)) in H1.
  rewrite stream_of_on_the_wire.
  pose proof (body_while_streaming _ (tl renders) _ _ _ (now + 1) _ _
                (all_stream_frames rest) H1) as H2.
  rewrite (ServerFacts.streamed_text_streams (fun x => x)), List.map_id in H2.
  change (step p (Handle now (Chat.stream_of first))) with (on_stream now (Some first) p).
  destruct (done_while_streaming _ _ _ _ _ now_done final H2)
    as (Hp & Hr & _ & _ & earlier & current & Hlen & Hmsgs & Hid & Hty & Hc & Hd).
  split_and!; [exact Hp | exact Hr | |].
  - rewrite Hmsgs, length_app, Hlen. cbn [length]. lia.
  - exists current. rewrite Hmsgs, last_snoc. now split_and!.
Qed.

Lemma streamed_fragments_are_concatenated_witness :
  Chat.currentAssistantIdRef (shown (resting (Chat.initial 0))) = None /\
  pending (resting (Chat.initial 0)) = [] /\
  exists m,
    last (Chat.messages (shown
            (play (scheduled 1700000000000 (List.map Chat.stream_of ["Hello"; "world"])
                             [false; true]
                     ++ [Render; Handle 1700000000002 (Chat.done_of (Some "Hello world")); Render])
                  (resting (Chat.initial 0))))) = Some m /\
    Chat.content m = Some "Helloworld".
Proof.
  split; [reflexivity|]. split; [reflexivity|].
  destruct (streamed_fragments_are_concatenated 1700000000000 (resting (Chat.initial 0))
              "Hello" ["world"] [false; true] 1700000000002 (Some "Hello world")
              eq_refl eq_refl) as (_ & _ & _ & m & Hlast & _ & _ & Hc & _).
  exists m. split; assumption.
Defined.

(** C2 as stated fails: after [stream] frames [Hello] and [world] and a
    [done] frame carrying [Hello world], each followed by a render, no
    message of the panel holds [Hello world]. *)
Lemma hello_world_is_not_respaced :
  let p := play (scheduled 1700000000000
                   (List.map Chat.stream_of ["Hello"; "world"]
                      ++ [Chat.done_of (Some "Hello world")])
                   [true; true; true])
                (resting (Chat.initial 0)) in
  ~ exists m, m ∈ Chat.messages (shown p) /\ Chat.content m = Some "Hello world".
Proof.
  cbv zeta. intros (m & Hin & Hc). vm_compute in Hin.
  apply elem_of_cons in Hin as [-> | Hin]; [discriminate|].
  apply elem_of_cons in Hin as [-> | Hin]; [discriminate|].
  inversion Hin.
Qed.

End PanelFacts.

(** ** The reconnecting socket hook *)

Module HookFacts.
Import Wire Hook.

Lemma count_app {A} (p : A -> bool) (l1 l2 : list A) :
  count p (l1 ++ l2) = count p l1 + count p l2.
Proof. unfold count. now rewrite List.filter_app, length_app. Qed.

Lemma count_cons {A} (p : A -> bool) (x : A) (l : list A) :
  count p (x :: l) = (if p x then 1 else 0) + count p l.
Proof. unfold count. cbn [List.filter]. now destruct (p x). Qed.

Lemma cancel_length (t : nat) (l : list nat) : length (cancel t l) <= length l.
Proof. apply length_filter. Qed.

Lemma cancel_length_lt (t : nat) (l : list nat) :
  t ∈ l -> length (cancel t l) < length l.
Proof. intros H. apply (length_filter_lt _ _ t); [assumption | intros Hne; now apply Hne]. Qed.

Lemma cancel_subset (t x : nat) (l : list nat) : x ∈ cancel t l -> x ∈ l /\ x <> t.
Proof. unfold cancel. rewrite list_elem_of_filter. tauto. Qed.

Lemma some_pair {A B} (p : A * B) (a : A) (b : B) :
  Some p = Some (a, b) -> a = fst p /\ b = snd p.
Proof. intros H. inversion H. now subst. Qed.

(** Case analysis on one enabled event: the hypothesis [H : step h e = Some
    (h', effs)] is replaced by the handler that ran, and the handler is
    taken apart along its branches. *)
Ltac which_event H :=
  match type of H with
  | Hook.step _ _ _ ?e = Some _ => destruct e
  end;
  cbn [Hook.step] in H;
  repeat match type of H with
  | context [sockets ?h !! ?s] =>
      let E := fresh "Hsock" in
      destruct (sockets h !! s) as [[]|] eqn:E; try discriminate H
  | context [bool_decide ?P] =>
      let E := fresh "Hin" in
      destruct (bool_decide_reflect P) as [E|E]; try discriminate H
  end;
  apply some_pair in H as [-> ->].

Ltac branches :=
  unfold Hook.retry, Hook.connect, Hook.disconnect, Hook.unmount, Hook.sendMessage,
    Hook.onopen, Hook.onmessage, Hook.onclose, Hook.current_readyState,
    Hook.with_sockets, Hook.with_timers, Hook.with_ui, Hook.call_opt in *;
  cbn [sockets timers nextTimer wsRef reconnectAttemptsRef reconnectTimeoutRef
       mountedRef isConnected isConnecting ui] in *;
  repeat case_match; simplify_eq;
  cbn [fst snd sockets timers nextTimer wsRef reconnectAttemptsRef reconnectTimeoutRef
       mountedRef isConnected isConnecting ui negb andb] in *.

Section Facts.
Context {U : Type} (accepts : string -> bool) (opts : UseWebSocketOptions U).
Local Abbreviation N := (maxReconnectAttempts opts).
Local Abbreviation step := (Hook.step accepts opts).
Local Abbreviation run := (Hook.run accepts opts).
Local Abbreviation connect := (Hook.connect accepts opts).

(** *** The attempt counter, one event at a time *)

Lemma step_attempts_range (h h' : State U) (e : Event) (effs : list Effect) :
  (0 <= N)%Z ->
  step h e = Some (h', effs) ->
  (0 <= reconnectAttemptsRef h <= N)%Z ->
  (0 <= reconnectAttemptsRef h' <= N)%Z.
Proof.
  intros HN Hstep Ha. which_event Hstep; branches; try lia.
Qed.

(** Outside a successful open the counter never goes down, and it goes up
    by one with every retry that is scheduled. *)
Lemma step_attempts_grow (h h' : State U) (e : Event) (effs : list Effect) :
  is_WsOpen e = false ->
  step h e = Some (h', effs) ->
  (reconnectAttemptsRef h <= N)%Z ->
  (reconnectAttemptsRef h + Z.of_nat (count is_SetTimeout effs)
   <= reconnectAttemptsRef h')%Z.
Proof.
  intros He Hstep Ha. which_event Hstep; try discriminate He; branches;
    rewrite ?count_cons, ?count_app; cbn; lia.
Qed.

(** An event schedules at most one retry, and when it does the counter is
    one more than before. *)
Lemma step_schedules_one (h h' : State U) (e : Event) (effs : list Effect) :
  step h e = Some (h', effs) ->
  count is_SetTimeout effs <= 1 /\
  (count is_SetTimeout effs = 1 ->
   reconnectAttemptsRef h' = (reconnectAttemptsRef h + 1)%Z /\
   (reconnectAttemptsRef h < N)%Z).
Proof.
  intros Hstep. which_event Hstep; branches;
    rewrite ?count_cons, ?count_app; cbn; split; try lia; try discriminate.
Qed.

(** Every timeout that fires uses up a pending timer, and only a scheduled
    retry adds one. *)
Lemma step_timers (h h' : State U) (e : Event) (effs : list Effect) :
  step h e = Some (h', effs) ->
  length (timers h') + (if is_Timeout e then 1 else 0)
  <= length (timers h) + count is_SetTimeout effs.
Proof.
  intros Hstep. which_event Hstep; branches;
    rewrite ?count_cons, ?count_app, ?length_app; cbn;
    try match goal with
        | H : ?t ∈ ?l |- _ => pose proof (cancel_length_lt t l H)
        end;
    try match goal with
        | |- context [cancel ?t ?l] => pose proof (cancel_length t l)
        end;
    lia.
Qed.

(** A successful open, in a mounted component, resets the counter. *)
Lemma open_resets_attempts (h h' : State U) (s : nat) (effs : list Effect) :
  step h (WsOpen s) = Some (h', effs) ->
  mountedRef h = true ->
  reconnectAttemptsRef h' = 0%Z /\ isConnected h' = true.
Proof.
  intros Hstep Hm. cbn [Hook.step] in Hstep.
  destruct (sockets h !! s) as [[]|]; try discriminate.
  apply some_pair in Hstep as [-> ->]. unfold onopen. cbn. rewrite Hm. cbn. split; reflexivity.
Qed.

(** *** Runs *)

Lemma run_cons (h : State U) (e : Event) (evs : list Event) (h' : State U) (effs : list Effect) :
  run h (e :: evs) = Some (h', effs) ->
  exists h1 effs1 effs2,
    step h e = Some (h1, effs1) /\ run h1 evs = Some (h', effs2) /\ effs = effs1 ++ effs2.
Proof.
  cbn [Hook.run]. destruct (step h e) as [[h1 effs1]|] eqn:Hs; [|discriminate].
  destruct (run h1 evs) as [[h2 effs2]|] eqn:Hr; [|discriminate].
  intros H. inversion H; subst. exists h1, effs1, effs2. repeat split; assumption.
Qed.

Lemma run_attempts_range (evs : list Event) (h h' : State U) (effs : list Effect) :
  (0 <= N)%Z ->
  run h evs = Some (h', effs) ->
  (0 <= reconnectAttemptsRef h <= N)%Z ->
  (0 <= reconnectAttemptsRef h' <= N)%Z.
Proof.
  intros HN. revert h effs.
  induction evs as [|e evs IH]; intros h effs Hrun Ha.
  - cbn in Hrun. inversion Hrun; subst. exact Ha.
  - apply run_cons in Hrun as (h1 & effs1 & effs2 & Hs & Hr & ->).
    eapply IH; [exact Hr|]. eapply step_attempts_range; eauto.
Qed.

(** Between two successful opens, the retries scheduled fit between the
    counter and its maximum, and the timeouts that fire are among the
    timers pending at the start and those scheduled since. *)
Lemma run_without_open (evs : list Event) (h h' : State U) (effs : list Effect) :
  (0 <= N)%Z ->
  run h evs = Some (h', effs) ->
  forallb (fun e => negb (is_WsOpen e)) evs = true ->
  (0 <= reconnectAttemptsRef h <= N)%Z ->
  (reconnectAttemptsRef h + Z.of_nat (count is_SetTimeout effs) <= N)%Z /\
  length (timers h') + count is_Timeout evs
  <= length (timers h) + count is_SetTimeout effs.
Proof.
  intros HN. revert h effs.
  induction evs as [|e evs IH]; intros h effs Hrun Hno Ha.
  - cbn in Hrun. inversion Hrun; subst. cbn. lia.
  - apply run_cons in Hrun as (h1 & effs1 & effs2 & Hs & Hr & ->).
    cbn [forallb] in Hno. apply andb_prop in Hno as [He Hno].
    apply negb_true_iff in He.
    pose proof (step_attempts_range _ _ _ _ HN Hs Ha) as Ha1.
    pose proof (step_attempts_grow _ _ _ _ He Hs (proj2 Ha)) as Hg.
    pose proof (step_timers _ _ _ _ Hs) as Ht.
    destruct (IH _ _ Hr Hno Ha1) as [IH1 IH2].
    rewrite count_app, count_cons. split; lia.
Qed.

(** *** One connection at a time *)

Lemma connect_noop (h : State U) :
  already_connecting h || already_connected h = true ->
  fst (connect h) = h /\ count is_NewWebSocket (snd (connect h)) = 0.
Proof.
  unfold already_connecting, already_connected, Hook.connect.
  destruct (current_readyState h) as [[]|]; cbn; intros H; try discriminate; split; reflexivity.
Qed.

Lemma run_connect_noop (n : nat) (h : State U) :
  already_connecting h || already_connected h = true ->
  exists effs,
    run h (replicate n Connect) = Some (h, effs) /\ count is_NewWebSocket effs = 0.
Proof.
  intros Hg. induction n as [|n [effs [IH1 IH2]]].
  - exists []. split; reflexivity.
  - destruct (connect_noop h Hg) as [Hfst Hsnd].
    exists (snd (connect h) ++ effs). cbn [replicate Hook.run Hook.step].
    destruct (connect h) as [h1 effs1] eqn:Hc. cbn [fst snd] in *. subst h1.
    rewrite IH1. split; [reflexivity|]. rewrite count_app. lia.
Qed.

Lemma steady_mounted (u : U) : steady (mounted accepts opts u).
Proof.
  unfold mounted, mount, Hook.connect, current_readyState, initial. cbn.
  destruct (accepts (url opts)); cbn; unfold steady; cbn.
  - split_and!.
    + reflexivity.
    + intros [|s]; cbn; discriminate.
    + intros [|s] r; cbn; [reflexivity | discriminate].
    + discriminate.
    + intros _. exists 0. split; reflexivity.
  - split_and!.
    + reflexivity.
    + intros s. cbn. discriminate.
    + intros s r. cbn. discriminate.
    + discriminate.
    + discriminate.
Qed.

Lemma steady_ext (h h' : State U) :
  mountedRef h' = mountedRef h -> sockets h' = sockets h -> wsRef h' = wsRef h ->
  isConnected h' = isConnected h -> isConnecting h' = isConnecting h ->
  steady h -> steady h'.
Proof. unfold steady. intros -> -> -> -> ->. exact (fun H => H). Qed.

Lemma steady_connect (h : State U) : steady h -> steady (fst (connect h)).
Proof.
  intros Hst. pose proof Hst as (Hm & Hclosing & Hone & Hopen & Hopening).
  assert (Hidle : (current_readyState h <> Some OPEN /\ current_readyState h <> Some CONNECTING) ->
                  forall s r, sockets h !! s = Some r -> outstanding r = true -> False).
  { intros [H1 H2] s r Hs Hr. pose proof (Hone s r Hs Hr) as Hw.
    unfold current_readyState in H1, H2. rewrite Hw, Hs in H1, H2.
    destruct r; try discriminate; congruence. }
  unfold Hook.connect.
  destruct (current_readyState h) as [[]|] eqn:Hcur; try exact Hst;
    (assert (Hnone : forall s r, sockets h !! s = Some r -> outstanding r = true -> False)
       by (apply Hidle; split; congruence));
    (destruct (accepts (url opts)); cbn [fst]; unfold steady;
     cbn [sockets wsRef mountedRef isConnected isConnecting]; split_and!;
     [ exact Hm
     | intros s Hs; apply lookup_snoc_Some in Hs as [[_ Hs]|[_ Hs]];
       [exact (Hclosing s Hs) | discriminate]
     | intros s r Hs Hr; apply lookup_snoc_Some in Hs as [[_ Hs]|[-> _]];
       [destruct (Hnone s r Hs Hr) | reflexivity]
     | intros Hc; destruct (Hopen Hc) as (s & _ & Hs); destruct (Hnone s OPEN Hs eq_refl)
     | intros _; exists (length (sockets h)); split; [reflexivity|];
       apply lookup_snoc_Some; right; split; reflexivity
     | exact Hm
     | exact Hclosing
     | exact Hone
     | exact Hopen
     | discriminate ]).
Qed.

Lemma steady_onopen (h : State U) (s : nat) :
  sockets h !! s = Some CONNECTING ->
  steady h ->
  steady (fst (onopen opts (with_sockets h (<[s := OPEN]> (sockets h))))).
Proof.
  intros Hs (Hm & Hclosing & Hone & Hopen & Hopening).
  unfold onopen, with_sockets. cbn [mountedRef]. rewrite Hm. cbn [negb fst].
  unfold steady. cbn [sockets wsRef mountedRef isConnected isConnecting]. split_and!.
  - reflexivity.
  - intros s0 H0. apply list_lookup_insert_Some in H0 as [(_ & H0 & _)|[_ H0]];
      [discriminate | exact (Hclosing s0 H0)].
  - intros s0 r H0 Hr. apply list_lookup_insert_Some in H0 as [(<- & _ & _)|[_ H0]].
    + exact (Hone s CONNECTING Hs eq_refl).
    + exact (Hone s0 r H0 Hr).
  - intros _. exists s. split; [exact (Hone s CONNECTING Hs eq_refl)|].
    apply list_lookup_insert_eq. now apply lookup_lt_Some in Hs.
  - discriminate.
Qed.

Lemma steady_onclose (h : State U) (s : nat) (r : ReadyState) :
  sockets h !! s = Some r -> r <> CLOSED ->
  steady h ->
  steady (fst (onclose opts (with_sockets h (<[s := CLOSED]> (sockets h))))).
Proof.
  intros Hs Hr (Hm & Hclosing & Hone & Hopen & Hopening).
  assert (Hw : wsRef h = Some s).
  { apply (Hone s r Hs). destruct r; try reflexivity; [|congruence].
    destruct (Hclosing s Hs). }
  assert (Hnone : forall s0 r0, <[s := CLOSED]> (sockets h) !! s0 = Some r0 ->
                                outstanding r0 = true -> False).
  { intros s0 r0 H0 Hr0. apply list_lookup_insert_Some in H0 as [(_ & <- & _)|[Hne H0]].
    - discriminate.
    - pose proof (Hone s0 r0 H0 Hr0). congruence. }
  unfold onclose, with_sockets. cbn [mountedRef reconnectAttemptsRef]. rewrite Hm. cbn [negb andb].
  destruct (reconnectAttemptsRef h <? N)%Z; cbn [fst]; unfold steady;
    cbn [sockets wsRef mountedRef isConnected isConnecting]; split_and!;
    try reflexivity; try discriminate;
    try (intros s0 r0 H0 Hr0; destruct (Hnone s0 r0 H0 Hr0));
    intros s0 H0; apply list_lookup_insert_Some in H0 as [(_ & H0 & _)|[_ H0]];
    try discriminate; exact (Hclosing s0 H0).
Qed.

Lemma steady_onmessage (h : State U) (data : Inbound) (now : Z) :
  steady h -> steady (fst (onmessage opts data now h)).
Proof.
  intros Hst. unfold onmessage.
  destruct (negb (mountedRef h)); [exact Hst|].
  destruct data; try exact Hst;
    (destruct (onMessage opts) as [f|]; [|exact Hst]);
    (destruct (f now _ (ui h)) as [u []]; cbn [fst];
     apply (steady_ext h); try reflexivity; exact Hst).
Qed.

Lemma steady_sendMessage (h : State U) (content : string) :
  steady h -> steady (fst (fst (sendMessage content h))).
Proof.
  intros Hst. unfold sendMessage.
  destruct (wsRef h), (current_readyState h) as [[]|]; exact Hst.
Qed.

Lemma steady_retry (h : State U) (t : nat) :
  steady h -> steady (fst (retry accepts opts (with_timers h (cancel t (timers h))))).
Proof.
  intros Hst. unfold retry. cbn [mountedRef with_timers].
  assert (Hst' : steady (with_timers h (cancel t (timers h))))
    by (apply (steady_ext h); try reflexivity; exact Hst).
  destruct (mountedRef h); [now apply steady_connect | exact Hst'].
Qed.

(** Without [disconnect] and without an unmount, every event keeps the
    hook steady. *)
Lemma step_steady (h h' : State U) (e : Event) (effs : list Effect) :
  is_teardown e = false ->
  step h e = Some (h', effs) ->
  steady h -> steady h'.
Proof.
  intros He Hstep Hst. which_event Hstep; try discriminate He;
    first [ exact Hst
          | now apply steady_connect
          | now apply steady_sendMessage
          | now apply steady_onopen
          | now apply steady_onmessage
          | now apply steady_retry
          | eapply steady_onclose; [eassumption | discriminate | exact Hst] ].
Qed.

Lemma run_steady (evs : list Event) (h h' : State U) (effs : list Effect) :
  forallb (fun e => negb (is_teardown e)) evs = true ->
  run h evs = Some (h', effs) ->
  steady h -> steady h'.
Proof.
  revert h effs. induction evs as [|e evs IH]; intros h effs Hno Hrun Hst.
  - cbn in Hrun. inversion Hrun; subst. exact Hst.
  - apply run_cons in Hrun as (h1 & effs1 & effs2 & Hs & Hr & ->).
    cbn [forallb] in Hno. apply andb_prop in Hno as [He Hno].
    apply negb_true_iff in He.
    eapply IH; [exact Hno | exact Hr |]. eapply step_steady; eauto.
Qed.

(** In a steady hook at most one socket is opening or open. *)
Lemma at_most_one_at (l : list ReadyState) (w : option nat) :
  (forall s r, l !! s = Some r -> outstanding r = true -> w = Some s) ->
  length (List.filter outstanding l) <= 1.
Proof.
  revert w. induction l as [|x l IH]; intros w H; cbn [List.filter length]; [lia|].
  destruct (outstanding x) eqn:Hx.
  - assert (Hw : w = Some 0) by (apply (H 0 x); [reflexivity | exact Hx]).
    assert (Hrest : List.filter outstanding l = []).
    { clear IH. assert (Hall : forall s r, l !! s = Some r -> outstanding r = false).
      { intros s r Hs. destruct (outstanding r) eqn:Hr; [|reflexivity].
        pose proof (H (S s) r Hs Hr). congruence. }
      clear H. induction l as [|y l IHl]; [reflexivity|]. cbn [List.filter].
      rewrite (Hall 0 y eq_refl). apply IHl. intros s r Hs. exact (Hall (S s) r Hs). }
    rewrite Hrest. cbn. lia.
  - apply (IH (match w with Some (S k) => Some k | _ => None end)).
    intros s r Hs Hr. rewrite (H (S s) r Hs Hr). reflexivity.
Qed.

Lemma steady_one_socket (h : State U) : steady h -> outstanding_sockets h <= 1.
Proof.
  intros (_ & _ & Hone & _). unfold outstanding_sockets.
  exact (at_most_one_at _ _ Hone).
Qed.

Lemma steady_flags_guard (h : State U) :
  steady h ->
  isConnecting h || isConnected h = true ->
  already_connecting h || already_connected h = true.
Proof.
  intros (_ & _ & _ & Hopen & Hopening) Hflag.
  unfold already_connecting, already_connected, current_readyState.
  apply orb_true_iff in Hflag as [Hf|Hf].
  - destruct (Hopening Hf) as (s & -> & ->). reflexivity.
  - destruct (Hopen Hf) as (s & -> & ->). reflexivity.
Qed.

(** *** After [disconnect] *)

Lemma close_socket_lookup (s s0 : nat) (l : list ReadyState) (r : ReadyState) :
  close_socket s l !! s0 = Some r ->
  l !! s0 = Some r \/ (s0 = s /\ r = CLOSING).
Proof.
  unfold close_socket. intros H.
  destruct (l !! s) as [[]|] eqn:Hs; auto;
    apply list_lookup_insert_Some in H as [(<- & <- & _)|[_ H]]; auto.
Qed.

Lemma disconnect_quiet (h : State U) :
  (forall t, t ∈ timers h -> reconnectTimeoutRef h = Some t) ->
  (forall s, sockets h !! s = Some CONNECTING -> wsRef h = Some s) ->
  quiet N (fst (disconnect opts h)) /\
  count is_NewWebSocket (snd (disconnect opts h)) = 0.
Proof.
  intros Htracked Hone. unfold disconnect, quiet.
  assert (Htimers : match reconnectTimeoutRef h with
                    | Some t => cancel t (timers h)
                    | None => timers h
                    end = []).
  { destruct (reconnectTimeoutRef h) as [t|] eqn:Href.
    - apply elem_of_nil_inv. intros x Hx. apply cancel_subset in Hx as [Hx Hne].
      pose proof (Htracked x Hx). congruence.
    - apply elem_of_nil_inv. intros x Hx. pose proof (Htracked x Hx). congruence. }
  assert (Hsocks : forall s0, match wsRef h with
                              | Some s => close_socket s (sockets h)
                              | None => sockets h
                              end !! s0 <> Some CONNECTING).
  { destruct (wsRef h) as [s|] eqn:Hw; intros s0 H0.
    - pose proof H0 as H1. apply close_socket_lookup in H1 as [H1|[_ H1]]; [|discriminate].
      pose proof (Hone s0 H1) as Heq. inversion Heq; subst s0.
      unfold close_socket in H0. rewrite H1 in H0.
      rewrite list_lookup_insert_eq in H0 by (now apply lookup_lt_Some in H1).
      discriminate H0.
    - pose proof (Hone s0 H0). congruence. }
  destruct (reconnectTimeoutRef h), (wsRef h); cbn in *; split_and!; auto.
Qed.

(** Once quiet, the hook stays quiet under every event but a [connect()]
    call: no socket is created and no timer is there to fire. *)
Lemma step_quiet (h h' : State U) (e : Event) (effs : list Effect) :
  is_Connect e = false ->
  step h e = Some (h', effs) ->
  quiet N h ->
  quiet N h' /\ count is_NewWebSocket effs = 0 /\ is_Timeout e = false.
Proof.
  intros He Hstep (Ht & Hc & Ha).
  destruct e; try discriminate He; cbn [Hook.step] in Hstep.
  - apply some_pair in Hstep as [-> ->].
    apply and_assoc. split; [|reflexivity].
    apply disconnect_quiet.
    + rewrite Ht. intros t Hin. inversion Hin.
    + intros s Hs. destruct (Hc s Hs).
  - apply some_pair in Hstep as [-> ->]. unfold sendMessage.
    destruct (wsRef h), (current_readyState h) as [[]|]; cbn; repeat split; assumption.
  - apply some_pair in Hstep as [-> ->]. unfold unmount, quiet. rewrite Ht.
    assert (Hsocks : forall s0, match wsRef h with
                                | Some s => close_socket s (sockets h)
                                | None => sockets h
                                end !! s0 <> Some CONNECTING).
    { destruct (wsRef h) as [s|]; intros s0 H0.
      - apply close_socket_lookup in H0 as [H0|[_ H0]]; [exact (Hc s0 H0) | discriminate].
      - exact (Hc s0 H0). }
    destruct (reconnectTimeoutRef h), (wsRef h); cbn in *; split_and!; auto.
  - destruct (sockets h !! s) as [[]|] eqn:Hs; try discriminate. destruct (Hc s Hs).
  - assert (Hgoal : quiet N (fst (onmessage opts data now h)) /\
                    count is_NewWebSocket (snd (onmessage opts data now h)) = 0).
    { unfold onmessage. destruct (negb (mountedRef h)); [now repeat split|].
      destruct data; try (now repeat split);
        (destruct (onMessage opts) as [f|]; [|now repeat split]);
        destruct (f now _ (ui h)) as [u []]; cbn; now repeat split. }
    destruct (sockets h !! s) as [[]|]; try discriminate;
      apply some_pair in Hstep as [-> ->]; split_and!; try apply Hgoal; reflexivity.
  - destruct (sockets h !! s); try discriminate.
    apply some_pair in Hstep as [-> ->]. cbn. now repeat split.
  - assert (Hgoal : quiet N (fst (onclose opts (with_sockets h (<[s := CLOSED]> (sockets h))))) /\
                    count is_NewWebSocket
                      (snd (onclose opts (with_sockets h (<[s := CLOSED]> (sockets h))))) = 0).
    { assert (Hsocks : forall s0, <[s := CLOSED]> (sockets h) !! s0 <> Some CONNECTING).
      { intros s0 H0. apply list_lookup_insert_Some in H0 as [(_ & H0 & _)|[_ H0]];
          [discriminate | exact (Hc s0 H0)]. }
      unfold onclose, with_sockets, quiet. cbn [mountedRef reconnectAttemptsRef].
      rewrite Ha, Z.ltb_irrefl, andb_false_r.
      destruct (negb (mountedRef h)); cbn; [now split_and! |].
      destruct (onDisconnect opts); cbn; now split_and!. }
    destruct (sockets h !! s) as [[]|]; try discriminate;
      apply some_pair in Hstep as [-> ->]; split_and!; try apply Hgoal; reflexivity.
  - rewrite Ht in Hstep. cbn in Hstep. discriminate.
Qed.

Lemma run_quiet (evs : list Event) (h h' : State U) (effs : list Effect) :
  forallb (fun e => negb (is_Connect e)) evs = true ->
  run h evs = Some (h', effs) ->
  quiet N h ->
  quiet N h' /\ count is_NewWebSocket effs = 0 /\ count is_Timeout evs = 0.
Proof.
  revert h effs. induction evs as [|e evs IH]; intros h effs Hno Hrun Hq.
  - cbn in Hrun. inversion Hrun; subst. split; [exact Hq | split; reflexivity].
  - apply run_cons in Hrun as (h1 & effs1 & effs2 & Hs & Hr & ->).
    cbn [forallb] in Hno. apply andb_prop in Hno as [He Hno].
    apply negb_true_iff in He.
    destruct (step_quiet _ _ _ _ He Hs Hq) as (Hq1 & Hn1 & Ht1).
    destruct (IH _ _ Hno Hr Hq1) as (Hq2 & Hn2 & Ht2).
    rewrite count_app, count_cons, Ht1, Hn1, Hn2, Ht2.
    split; [exact Hq2 | split; reflexivity].
Qed.

Lemma mounted_fresh (u : U) :
  reconnectAttemptsRef (mounted accepts opts u) = 0%Z /\ timers (mounted accepts opts u) = [].
Proof.
  unfold mounted, mount, Hook.connect, current_readyState, initial. cbn.
  destruct (accepts (url opts)); split; reflexivity.
Qed.

Lemma connect_timers (h : State U) : timers (fst (connect h)) = timers h.
Proof.
  unfold Hook.connect.
  destruct (current_readyState h) as [[]|]; destruct (accepts (url opts)); reflexivity.
Qed.

(** *** A [disconnect] of a hook that only retried on its own *)

Lemma tracked_idle (h : State U) : timers h = [] -> tracked h.
Proof.
  intros H. unfold tracked. rewrite H. split; [|congruence].
  intros t Hin. inversion Hin.
Qed.

Lemma tracked_busy (h : State U) (s : nat) (r : ReadyState) :
  tracked h -> sockets h !! s = Some r -> outstanding r = true -> timers h = [].
Proof.
  intros [_ H] Hs Hr. destruct (timers h) as [|t l] eqn:Ht; [reflexivity|].
  assert (Hne : t :: l <> []) by discriminate.
  pose proof (H Hne s r Hs). congruence.
Qed.

Lemma steady_live (h : State U) (s : nat) (r : ReadyState) :
  steady h -> sockets h !! s = Some r -> r <> CLOSED -> outstanding r = true.
Proof.
  intros (_ & Hclosing & _) Hs Hr. destruct r; try reflexivity; [|congruence].
  destruct (Hclosing s Hs).
Qed.

Lemma steady_closed_all (h : State U) (s : nat) (r : ReadyState) :
  steady h -> sockets h !! s = Some r -> r <> CLOSED ->
  forall s0 r0, <[s := CLOSED]> (sockets h) !! s0 = Some r0 -> outstanding r0 = false.
Proof.
  intros Hst Hs Hr s0 r0 H0. pose proof (steady_live h s r Hst Hs Hr) as Hlive.
  destruct Hst as (_ & _ & Hone & _).
  apply list_lookup_insert_Some in H0 as [(_ & <- & _)|[Hne H0]]; [reflexivity|].
  destruct (outstanding r0) eqn:Hr0; [|reflexivity].
  pose proof (Hone s0 r0 H0 Hr0). pose proof (Hone s r Hs Hlive). congruence.
Qed.

Lemma step_tracked (h h' : State U) (e : Event) (effs : list Effect) :
  is_teardown e = false -> is_Connect e = false ->
  step h e = Some (h', effs) ->
  steady h -> tracked h -> tracked h'.
Proof.
  intros He1 He2 Hstep Hst Htr.
  destruct e; try discriminate He1; try discriminate He2; cbn [Hook.step] in Hstep.
  - apply some_pair in Hstep as [-> _]. unfold sendMessage.
    destruct (wsRef h), (current_readyState h) as [[]|]; exact Htr.
  - destruct (sockets h !! s) as [[]|] eqn:Hs; try discriminate.
    apply some_pair in Hstep as [-> _]. apply tracked_idle.
    pose proof (tracked_busy h s CONNECTING Htr Hs eq_refl) as Ht.
    unfold onopen, with_sockets. cbn [mountedRef].
    destruct (negb (mountedRef h)); exact Ht.
  - assert (Hgoal : tracked (fst (onmessage opts data now h))).
    { unfold onmessage. destruct (negb (mountedRef h)); [exact Htr|].
      destruct data; try exact Htr;
        (destruct (onMessage opts) as [f|]; [|exact Htr]);
        destruct (f now _ (ui h)) as [u []]; exact Htr. }
    destruct (sockets h !! s) as [[]|]; try discriminate;
      apply some_pair in Hstep as [-> _]; exact Hgoal.
  - destruct (sockets h !! s); try discriminate.
    apply some_pair in Hstep as [-> _]. exact Htr.
  - assert (Hgoal : forall r, sockets h !! s = Some r -> r <> CLOSED ->
                    tracked (fst (onclose opts (with_sockets h (<[s := CLOSED]> (sockets h)))))).
    { intros r Hs Hr.
      pose proof (tracked_busy h s r Htr Hs (steady_live h s r Hst Hs Hr)) as Ht.
      pose proof (steady_closed_all h s r Hst Hs Hr) as Hall.
      unfold onclose, with_sockets. cbn [mountedRef reconnectAttemptsRef].
      destruct (negb (mountedRef h)); [apply tracked_idle; exact Ht|].
      destruct (mountedRef h && (reconnectAttemptsRef h <? N)%Z); cbn [fst].
      - unfold tracked. cbn [timers reconnectTimeoutRef sockets]. rewrite Ht. split.
        + intros t Hin. apply list_elem_of_singleton in Hin. now subst.
        + intros _. exact Hall.
      - apply tracked_idle. exact Ht. }
    destruct (sockets h !! s) as [[]|] eqn:Hs; try discriminate;
      apply some_pair in Hstep as [-> _]; eapply Hgoal; eauto; discriminate.
  - destruct (bool_decide_reflect (t ∈ timers h)) as [Hin|]; [|discriminate].
    apply some_pair in Hstep as [-> _]. apply tracked_idle.
    assert (Hnil : cancel t (timers h) = []).
    { apply elem_of_nil_inv. intros x Hx. apply cancel_subset in Hx as [Hx Hne].
      destruct Htr as [Href _]. pose proof (Href x Hx). pose proof (Href t Hin). congruence. }
    unfold retry. cbn [mountedRef with_timers]. destruct (mountedRef h); [|exact Hnil].
    rewrite connect_timers. exact Hnil.
Qed.

Lemma run_tracked (evs : list Event) (h h' : State U) (effs : list Effect) :
  forallb (fun e => negb (is_teardown e) && negb (is_Connect e)) evs = true ->
  run h evs = Some (h', effs) ->
  steady h -> tracked h -> steady h' /\ tracked h'.
Proof.
  revert h effs. induction evs as [|e evs IH]; intros h effs Hno Hrun Hst Htr.
  - cbn in Hrun. inversion Hrun; subst. now split.
  - apply run_cons in Hrun as (h1 & effs1 & effs2 & Hs & Hr & ->).
    cbn [forallb] in Hno. apply andb_prop in Hno as [He Hno].
    apply andb_prop in He as [He1 He2].
    apply negb_true_iff in He1. apply negb_true_iff in He2.
    eapply IH; [exact Hno | exact Hr | |].
    + eapply step_steady; eauto.
    + eapply step_tracked; eauto.
Qed.

(** When every [connect()] so far came from the hook itself, [disconnect]
    wins: until the caller connects again, no socket is created and no
    retry timer fires. *)
Lemma disconnect_wins_over_own_retries (u : U) (before after : list Event)
      (h1 h2 : State U) (effs1 effs2 : list Effect) :
  forallb (fun e => negb (is_teardown e) && negb (is_Connect e)) before = true ->
  forallb (fun e => negb (is_Connect e)) after = true ->
  run (mounted accepts opts u) before = Some (h1, effs1) ->
  run h1 (Disconnect :: after) = Some (h2, effs2) ->
  count is_NewWebSocket effs2 = 0 /\ count is_Timeout after = 0.
Proof.
  intros Hb Ha Hrun1 Hrun2.
  destruct (run_tracked _ _ _ _ Hb Hrun1 (steady_mounted u)
              (tracked_idle _ (proj2 (mounted_fresh u)))) as [Hst Htr].
  apply run_cons in Hrun2 as (hd & effsd & effsa & Hs & Hr & ->).
  cbn [Hook.step] in Hs. apply some_pair in Hs as [-> ->].
  destruct (disconnect_quiet h1) as [Hq Hn].
  - exact (proj1 Htr).
  - intros s Hs. destruct Hst as (_ & _ & Hone & _). exact (Hone s CONNECTING Hs eq_refl).
  - destruct (run_quiet _ _ _ _ Ha Hr Hq) as (_ & Hn2 & Ht2).
    rewrite count_app, Hn, Hn2. split; [reflexivity | exact Ht2].
Qed.

(** As long as every [connect()] came from the hook itself, no retry timer
    is pending when a connection opens; so after that open, whatever
    happens next, at most [N] retries are scheduled and at most [N] retry
    timers fire before a connection opens again. *)
Theorem own_retries_are_bounded (u : U) (before after : list Event) (s : nat)
        (h0 h1 h2 : State U) (effs0 effs1 effs2 : list Effect) :
  (0 <= N)%Z ->
  forallb (fun e => negb (is_teardown e) && negb (is_Connect e)) before = true ->
  run (mounted accepts opts u) before = Some (h0, effs0) ->
  step h0 (WsOpen s) = Some (h1, effs1) ->
  forallb (fun e => negb (is_WsOpen e)) after = true ->
  run h1 after = Some (h2, effs2) ->
  reconnectAttemptsRef h1 = 0%Z /\
  timers h1 = [] /\
  (Z.of_nat (count is_SetTimeout effs2) <= N)%Z /\
  (Z.of_nat (count is_Timeout after) <= N)%Z.
Proof.
  intros HN Hb Hrun0 Hopen Ha Hrun.
  destruct (run_tracked _ _ _ _ Hb Hrun0 (steady_mounted u)
              (tracked_idle _ (proj2 (mounted_fresh u)))) as [Hst Htr].
  pose proof (open_resets_attempts _ _ _ _ Hopen (proj1 Hst)) as [Ha1 _].
  assert (Ht1 : timers h1 = []).
  { cbn [Hook.step] in Hopen.
    destruct (sockets h0 !! s) as [[]|] eqn:Hs; try discriminate.
    apply some_pair in Hopen as [-> _].
    pose proof (tracked_busy h0 s CONNECTING Htr Hs eq_refl) as Ht.
    unfold onopen, with_sockets. cbn [mountedRef]. rewrite (proj1 Hst). exact Ht. }
  destruct (run_without_open _ _ _ _ HN Hrun Ha ltac:(rewrite Ha1; lia)) as [H1 H2].
  rewrite Ha1 in H1. rewrite Ht1 in H2. cbn [length] in H2.
  split_and!; [exact Ha1 | exact Ht1 | lia | lia].
Qed.

(** With [maxReconnectAttempts = N], in every run of the mounted hook the
    attempt counter stays between 0 and [N]; in a run in which no
    connection opens at all, at most [N] retries are scheduled and at most
    [N] retry timers fire; an event schedules at most one retry, only
    below the maximum, and the counter is then one more than before; and
    an open connection sets the counter back to 0. *)
Theorem reconnect_attempts_bounded (u : U) (evs : list Event) (h : State U)
        (effs : list Effect) :
  (0 <= N)%Z ->
  run (mounted accepts opts u) evs = Some (h, effs) ->
  (0 <= reconnectAttemptsRef h <= N)%Z /\
  (forallb (fun e => negb (is_WsOpen e)) evs = true ->
   (Z.of_nat (count is_SetTimeout effs) <= N)%Z /\
   (Z.of_nat (count is_Timeout evs) <= N)%Z) /\
  (forall e h1 effs1,
     step h e = Some (h1, effs1) ->
     count is_SetTimeout effs1 <= 1 /\
     (count is_SetTimeout effs1 = 1 ->
      reconnectAttemptsRef h1 = (reconnectAttemptsRef h + 1)%Z /\
      (reconnectAttemptsRef h < N)%Z)) /\
  (forall s h1 effs1,
     step h (WsOpen s) = Some (h1, effs1) ->
     mountedRef h = true -> reconnectAttemptsRef h1 = 0%Z).
Proof.
  intros HN Hrun. destruct (mounted_fresh u) as [Ha0 Ht0].
  assert (Hrange0 : (0 <= reconnectAttemptsRef (mounted accepts opts u) <= N)%Z)
    by (rewrite Ha0; lia).
  split_and!.
  - exact (proj1 (run_attempts_range _ _ _ _ HN Hrun Hrange0)).
  - exact (proj2 (run_attempts_range _ _ _ _ HN Hrun Hrange0)).
  - intros Hno. destruct (run_without_open _ _ _ _ HN Hrun Hno Hrange0) as [H1 H2].
    rewrite Ha0 in H1. rewrite Ht0 in H2. cbn [length] in H2. lia.
  - intros e h1 effs1 Hs. destruct (step_schedules_one _ _ _ _ Hs) as [H1 H2].
    split; [exact H1 | exact H2].
  - intros s h1 effs1 Hs Hm. exact (proj1 (open_resets_attempts _ _ _ _ Hs Hm)).
Qed.

(** A [connect()] call made while the socket in [wsRef] is opening or
    open changes nothing and creates no socket, however often it is
    repeated; and in every run of the mounted hook without [disconnect] and
    unmount, whatever [connect()] calls it contains, at most one socket is
    opening or open, and whenever the exposed state is connecting or
    connected the guard of [connect] holds. *)
Theorem connect_is_idempotent :
  (forall (h : State U) (n : nat),
     already_connecting h || already_connected h = true ->
     exists effs,
       run h (replicate n Connect) = Some (h, effs) /\ count is_NewWebSocket effs = 0) /\
  (forall (u : U) (evs : list Event) (h : State U) (effs : list Effect),
     forallb (fun e => negb (is_teardown e)) evs = true ->
     run (mounted accepts opts u) evs = Some (h, effs) ->
     outstanding_sockets h <= 1 /\
     (isConnecting h || isConnected h = true ->
      already_connecting h || already_connected h = true)).
Proof.
  split.
  - intros h n Hg. now apply run_connect_noop.
  - intros u evs h effs Hno Hrun.
    pose proof (run_steady _ _ _ _ Hno Hrun (steady_mounted u)) as Hst.
    split; [now apply steady_one_socket | now apply steady_flags_guard].
Qed.

End Facts.

Lemma own_retries_are_bounded_witness :
  (0 <= 5)%Z /\
  exists h1 effs1 h2 effs2,
    App.step (App.start 0) (WsOpen 0) = Some (h1, effs1) /\
    App.run h1 [WsClose 0; Timeout 1; WsClose 1; Timeout 2] = Some (h2, effs2) /\
    (Z.of_nat (count is_SetTimeout effs2) <= 5)%Z /\
    (Z.of_nat (count is_Timeout [WsClose 0; Timeout 1; WsClose 1; Timeout 2]) <= 5)%Z.
Proof.
  split; [lia|]. eexists _, _, _, _.
  split; [vm_compute; reflexivity|]. split; [vm_compute; reflexivity|].
  refine (proj2 (proj2 (own_retries_are_bounded App.accepts App.options (Chat.initial 0)
                          [] [WsClose 0; Timeout 1; WsClose 1; Timeout 2] 0 _ _ _ _ _ _
                          _ eq_refl eq_refl _ eq_refl _)));
    [cbn; lia | vm_compute; reflexivity | vm_compute; reflexivity].
Defined.

Lemma reconnect_attempts_bounded_witness :
  (0 <= 5)%Z /\
  exists h effs,
    App.run (App.start 0) [WsClose 0; Timeout 1; WsClose 1; Timeout 2] = Some (h, effs) /\
    (0 <= reconnectAttemptsRef h <= 5)%Z /\
    (Z.of_nat (count is_SetTimeout effs) <= 5)%Z /\
    (Z.of_nat (count is_Timeout [WsClose 0; Timeout 1; WsClose 1; Timeout 2]) <= 5)%Z.
Proof.
  split; [lia|]. eexists _, _. split; [vm_compute; reflexivity|].
  pose proof (reconnect_attempts_bounded App.accepts App.options (Chat.initial 0)
                [WsClose 0; Timeout 1; WsClose 1; Timeout 2] _ _
                ltac:(cbn; lia) ltac:(vm_compute; reflexivity)) as (Hrange & Hbound & _).
  split; [exact Hrange | exact (Hbound eq_refl)].
Defined.

Lemma connect_is_idempotent_witness :
  already_connecting (App.start 0) || already_connected (App.start 0) = true /\
  (exists effs,
     App.run (App.start 0) [Connect; Connect; Connect] = Some (App.start 0, effs) /\
     count is_NewWebSocket effs = 0) /\
  exists h effs,
    App.run (App.start 0) [Connect; WsOpen 0; Connect; WsClose 0; Connect; Timeout 1]
      = Some (h, effs) /\
    outstanding_sockets h <= 1.
Proof.
  split; [reflexivity|]. split.
  - exact (proj1 (connect_is_idempotent App.accepts App.options) (App.start 0) 3 eq_refl).
  - eexists _, _. split; [vm_compute; reflexivity|].
    refine (proj1 (proj2 (connect_is_idempotent App.accepts App.options) (Chat.initial 0)
                     [Connect; WsOpen 0; Connect; WsClose 0; Connect; Timeout 1] _ _ _ _)).
    + reflexivity.
    + vm_compute. reflexivity.
Defined.

End HookFacts.

(** ** The panel, the hook and the server together *)

Module AppFacts.
Import Wire Hook.

(** C5, evaluated on the code: after the first socket failed, a manual
    [connect()] and a second failure, two retry timers are pending;
    [disconnect()] clears only the one in [reconnectTimeoutRef], and when
    the other one fires it creates a socket although the counter sits at
    its maximum. *)
Theorem stale_retry_fires_after_disconnect :
  exists h effs,
    App.run (App.start 0) App.two_failures_then_disconnect = Some (h, effs) /\
    timers h = [1] /\
    reconnectTimeoutRef h = None /\
    reconnectAttemptsRef h = 5%Z /\
    exists h',
      App.step h (Timeout 1) =
        Some (h', [ConsoleLog "Creating WebSocket connection to:"; NewWebSocket 2]) /\
      sockets h' !! 2 = Some CONNECTING /\
      wsRef h' = Some 2.
Proof.
  eexists _, _. split; [vm_compute; reflexivity|].
  split; [reflexivity|]. split; [reflexivity|]. split; [reflexivity|].
  eexists. split; [vm_compute; reflexivity|]. split; reflexivity.
Qed.


(** C7, evaluated on the code: the caller disconnects and connects again;
    the close event of the old socket then sets [wsRef] to [null] although
    it holds the new socket.  Once the new socket is open the hook reports
    connected, yet [connect()] finds no socket in [wsRef] and creates a
    second one next to the open one, and [sendMessage] refuses to send. *)
Theorem late_close_lets_connect_open_a_second_socket :
  exists h effs h' effs',
    App.run (App.start 0) App.late_close = Some (h, effs) /\
    isConnected h = true /\
    sockets h !! 1 = Some OPEN /\
    wsRef h = None /\
    outstanding_sockets h = 1 /\
    App.step h Connect = Some (h', effs') /\
    effs' = [ConsoleLog "Creating WebSocket connection to:"; NewWebSocket 2] /\
    sockets h' = [CLOSED; OPEN; CONNECTING] /\
    outstanding_sockets h' = 2 /\
    snd (sendMessage "hi" h) = false.
Proof.
  eexists _, _, _, _. split; [vm_compute; reflexivity|].
  split; [reflexivity|]. split; [reflexivity|]. split; [reflexivity|].
  split; [reflexivity|]. split; [vm_compute; reflexivity|].
  split_and!; reflexivity.
Qed.

Lemma with_ui_same {U} (h : State U) : with_ui h (ui h) = h.
Proof. now destruct h. Qed.

Lemma unknown_type_eqbs (t : string) :
  existsb (String.eqb t) known_types = false ->
  String.eqb t "connected" = false /\ String.eqb t "thinking" = false /\
  String.eqb t "thinking_done" = false /\ String.eqb t "stream" = false /\
  String.eqb t "done" = false /\ String.eqb t "error" = false /\
  String.eqb t "chat" = false.
Proof.
  unfold known_types. cbn [existsb]. intros H.
  repeat (apply orb_false_iff in H as [? H]). split_and!; assumption.
Qed.

(** The panel ignores a frame that is no Session Message; reading [type]
    off [null] raises before anything was changed. *)
Lemma handler_ignores_malformed (now : Z) (f : Inbound) (st : Chat.State) :
  malformed f = true ->
  fst (Chat.handleWebSocketMessage now f st) = st.
Proof.
  destruct f as [| |[t|] c]; cbn [malformed]; intros H; try reflexivity.
  apply negb_true_iff, unknown_type_eqbs in H as (H1 & H2 & H3 & H4 & H5 & H6 & _).
  cbn [Chat.handleWebSocketMessage]. now rewrite H1, H2, H3, H4, H5, H6.
Qed.

Lemma send_readyState (ws : Server.Socket) (f : Frame) :
  Server.readyState (Server.send ws f) = Server.readyState ws.
Proof.
  unfold Server.send, Server.sendSafe.
  now destruct (readyState_code (Server.readyState ws) =? 1)%Z.
Qed.

Lemma send_emitted (ws : Server.Socket) (f : Frame) :
  Server.emitted ws (Server.send ws f) = [] \/ Server.emitted ws (Server.send ws f) = [f].
Proof.
  destruct (Server.readyState ws) eqn:Hr.
  2: { right. rewrite ServerFacts.send_open by assumption. apply ServerFacts.emitted_app. }
  all: left; rewrite ServerFacts.send_silent by congruence; apply ServerFacts.emitted_same.
Qed.

(** C9, as the code has it: a frame that is no Session Message never
    changes the state of the hook or of the panel and closes nothing.  A
    frame that does not decode is logged and never reaches the message
    handler (a frame that decodes does reach it, and is ignored there).
    On the server such a frame starts no turn: the socket is left as it
    was, except that a frame that does not decode, or decodes to [null],
    is answered with one [error] frame. *)
Theorem malformed_frame_is_harmless (f : Inbound) :
  malformed f = true ->
  (forall h s now h' effs,
     App.step h (WsMessage s f now) = Some (h', effs) ->
     h' = h /\
     count is_CloseSocket effs = 0 /\
     (f = Undecodable ->
      count is_CallOnMessage effs = 0 /\
      (mountedRef h = true ->
       effs = [ConsoleError "Failed to parse WebSocket message:"]))) /\
  (forall g ws,
     Server.readyState (Server.onMessage g ws f) = Server.readyState ws /\
     (Server.emitted ws (Server.onMessage g ws f) = [] \/
      Server.emitted ws (Server.onMessage g ws f) = [Server.error_frame]) /\
     (f = Undecodable \/ f = DecodedNull ->
      Server.onMessage g ws f = Server.send ws Server.error_frame) /\
     (forall ty c, f = Decoded ty c -> Server.onMessage g ws f = ws)).
Proof.
  intros Hmal. split.
  - intros h s now h' effs Hstep. unfold App.step in Hstep. cbn [Hook.step] in Hstep.
    assert (Hok : Some (onmessage App.options f now h) = Some (h', effs))
      by (destruct (sockets h !! s) as [[]|]; try discriminate; exact Hstep).
    apply HookFacts.some_pair in Hok as [-> ->]. unfold onmessage.
    destruct (mountedRef h); cbn [negb].
    + pose proof (handler_ignores_malformed now f (ui h) Hmal) as Hui.
      destruct f as [| |ty c]; cbn [onMessage App.options] in *.
      * split_and!; try reflexivity. intros _. split; [reflexivity | intros _; reflexivity].
      * destruct (Chat.handleWebSocketMessage now DecodedNull (ui h)) as [u []];
          cbn [fst snd] in *; subst u; rewrite with_ui_same;
          split_and!; try reflexivity; discriminate.
      * destruct (Chat.handleWebSocketMessage now (Decoded ty c) (ui h)) as [u []];
          cbn [fst snd] in *; subst u; rewrite with_ui_same;
          split_and!; try reflexivity; discriminate.
    + cbn [fst snd]. split_and!; try reflexivity.
      intros _. split; [reflexivity | discriminate].
  - intros g ws. destruct f as [| |[t|] c]; cbn [Server.onMessage].
    + split_and!; [apply send_readyState | apply send_emitted | reflexivity | discriminate].
    + split_and!; [apply send_readyState | apply send_emitted | reflexivity | discriminate].
    + cbn [malformed] in Hmal.
      apply negb_true_iff, unknown_type_eqbs in Hmal as (_ & _ & _ & _ & _ & _ & ->).
      split_and!; [reflexivity | left; apply ServerFacts.emitted_same | | reflexivity].
      intros [H|H]; discriminate H.
    + split_and!; [reflexivity | left; apply ServerFacts.emitted_same | | reflexivity].
      intros [H|H]; discriminate H.
Qed.

Lemma malformed_frame_is_harmless_witness :
  malformed (Decoded (Some "ping") (Some "x")) = true /\
  (forall h s now h' effs,
     App.step h (WsMessage s (Decoded (Some "ping") (Some "x")) now) = Some (h', effs) ->
     h' = h /\ count is_CloseSocket effs = 0) /\
  Server.onMessage Server.demo_mode Server.accepted (Decoded (Some "ping") (Some "x"))
    = Server.accepted.
Proof.
  pose proof (malformed_frame_is_harmless (Decoded (Some "ping") (Some "x")) eq_refl)
    as [Hclient Hserver].
  split; [reflexivity|]. split.
  - intros h s now h' effs Hstep.
    destruct (Hclient h s now h' effs Hstep) as (H1 & H2 & _). split; assumption.
  - exact (proj2 (proj2 (proj2 (Hserver Server.demo_mode Server.accepted))) _ _ eq_refl).
Defined.

(** C9 as stated fails: a frame with an unknown [type] is handed to the
    message handler of the panel. *)
Lemma unknown_type_reaches_the_handler :
  ~ (forall f h s now h' effs,
       malformed f = true ->
       App.step h (WsMessage s f now) = Some (h', effs) ->
       count is_CallOnMessage effs = 0).
Proof.
  intros H.
  specialize (H (Decoded (Some "ping") (Some "x")) (App.opened 0) 0 7%Z
                (App.opened 0) [CallOnMessage (Decoded (Some "ping") (Some "x"))]
                eq_refl eq_refl).
  discriminate H.
Qed.

End AppFacts.

(** * Further properties *)

(** ** The relay server: the shape of a turn and start-up *)

Module TurnFacts.
Import Wire Server.

Lemma concat_all_nonempty (chunks : list string) :
  JsString.concat_all (List.filter nonempty chunks) = JsString.concat_all chunks.
Proof.
  induction chunks as [|c chunks IH]; [reflexivity|].
  cbn [List.filter]. unfold nonempty at 1.
  change (JsString.concat_all (c :: chunks)) with (c +:+ JsString.concat_all chunks).
  destruct (String.eqb_spec c "") as [->|Hc]; cbn [negb].
  - rewrite IH. reflexivity.
  - change (JsString.concat_all (c :: List.filter nonempty chunks))
      with (c +:+ JsString.concat_all (List.filter nonempty chunks)).
    now rewrite IH.
Qed.

(** Whatever arrives on a socket that is not open, the listener sends
    nothing: no turn frame and no [error] frame either. *)
Theorem closed_socket_stays_silent (g : Globals) (ws : Socket) (data : Inbound) :
  readyState ws <> OPEN -> onMessage g ws data = ws.
Proof.
  intros H. destruct data as [| |[t|] c]; cbn [onMessage];
    try (now apply ServerFacts.send_silent); try reflexivity.
  destruct (String.eqb t "chat"); [|reflexivity].
  pose proof (ServerFacts.handleChatMessage_silent g ws c H) as Hs.
  destruct (handleChatMessage g ws c) as [ws' []]; cbn [fst] in Hs; subst ws';
    [reflexivity | now apply ServerFacts.send_silent].
Qed.

Lemma closed_socket_stays_silent_witness :
  readyState (mkSocket CLOSING [connected_frame]) <> OPEN /\
  onMessage answering (mkSocket CLOSING [connected_frame]) (Decoded (Some "chat") (Some "hi"))
    = mkSocket CLOSING [connected_frame].
Proof.
  split; [discriminate|].
  apply (closed_socket_stays_silent answering (mkSocket CLOSING [connected_frame])).
  discriminate.
Defined.

Lemma stream_frames_of_turn (g : Globals) (message : string) :
  exists texts,
    frames_of_type "stream" (turn_frames g message) = List.map stream_frame texts /\
    Forall (fun t => t <> "") texts.
Proof.
  assert (Hw : forall r, Forall (fun t => t <> "")
                           (List.map (fun w => w +:+ " ") (JsString.split_space r))).
  { intros r. apply Forall_forall. intros t Ht. apply list_elem_of_In, in_map_iff in Ht.
    destruct Ht as (w & <- & _). destruct w; discriminate. }
  assert (Hc : forall cs, Forall (fun t => t <> "") (List.filter nonempty cs)).
  { intros cs. apply Forall_forall. intros t Ht. apply list_elem_of_In, filter_In in Ht.
    destruct Ht as [_ Ht]. unfold nonempty in Ht. intros ->. discriminate Ht. }
  assert (Hwf : forall r, word_frames r =
                          List.map stream_frame (List.map (fun w => w +:+ " ") (JsString.split_space r))).
  { intros r. unfold word_frames. now rewrite List.map_map. }
  unfold turn_frames, gemini_frames, mock_frames.
  destruct (useAI g), (model g) as [m|];
    try destruct (m (Some message)) as [| |chunks []];
    rewrite ?ServerFacts.frames_of_type_cons, ?ServerFacts.frames_of_type_app,
      ?ServerFacts.frames_of_type_cons, ?ServerFacts.frames_of_type_app,
      ?ServerFacts.frames_of_type_cons,
      ?ServerFacts.frames_of_type_word_frames, ?ServerFacts.frames_of_type_chunk_frames;
    cbn [type thinking_frame thinking_done_frame done_frame String.eqb Ascii.eqb Bool.eqb app];
    rewrite ?app_nil_r, ?Hwf; unfold chunk_frames; rewrite <- ?List.map_app;
    try (exists []; split; [reflexivity | constructor]);
    eexists; (split; [reflexivity|]); rewrite ?Forall_app; auto.
Qed.

(** Every [stream] frame of a turn carries a non-empty text: empty chunks
    of the upstream are skipped, and a fallback word is sent with its
    space. *)
Theorem stream_frames_carry_text (g : Globals) (ws : Socket) (message : string) :
  readyState ws = OPEN ->
  Forall (fun f => exists text, content f = Some text /\ text <> "")
         (frames_of_type "stream" (emitted ws (fst (handleChatMessage g ws (Some message))))).
Proof.
  intros H. rewrite ServerFacts.handleChatMessage_open by assumption.
  cbn [fst]. rewrite ServerFacts.emitted_app.
  destruct (stream_frames_of_turn g message) as (texts & -> & Hne).
  apply Forall_forall. intros f Hf. apply list_elem_of_In, in_map_iff in Hf.
  destruct Hf as (t & <- & Ht). exists t. split; [reflexivity|].
  rewrite Forall_forall in Hne. apply Hne. now apply list_elem_of_In.
Qed.

Lemma stream_frames_carry_text_witness :
  readyState accepted = OPEN /\
  Forall (fun f => exists text, content f = Some text /\ text <> "")
         (frames_of_type "stream"
            (emitted accepted (fst (handleChatMessage answering accepted (Some "hi"))))).
Proof.
  split; [reflexivity|].
  apply (stream_frames_carry_text answering accepted "hi"). reflexivity.
Defined.

(** A turn for a text message on an open socket has a fixed frame order:
    [thinking] first, [thinking_done] second, and one closing frame last;
    between them there are only [stream] frames and, after an upstream
    failure that the fallback took over, one more [thinking_done].  The
    closing frame is [done]; it is the listener's [error] exactly when the
    upstream threw [null] or [undefined], which the [catch] block of
    [streamGeminiResponse] does not survive. *)
Theorem turn_frame_order (g : Globals) (ws : Socket) (message : string) :
  readyState ws = OPEN ->
  exists body closing,
    emitted ws (onMessage g ws (Decoded (Some "chat") (Some message))) =
      thinking_frame :: thinking_done_frame :: body ++ [closing] /\
    (if upstream_fails_nullish g (Some message)
     then closing = error_frame
     else exists text, closing = done_frame text) /\
    frames_of_type "done" body = [] /\
    frames_of_type "thinking" body = [] /\
    frames_of_type "error" body = [] /\
    frames_of_type "connected" body = [].
Proof.
  intros H. unfold onMessage.
  change (String.eqb "chat" "chat") with true. cbv iota.
  rewrite ServerFacts.handleChatMessage_open by assumption.
  unfold turn_completion, turn_frames, gemini_frames, mock_frames, upstream_fails_nullish.
  assert (Hmock : exists body closing,
             emitted ws (mkSocket OPEN (outbox ws ++
               thinking_frame :: thinking_done_frame :: word_frames (getMockResponse message)
               ++ [done_frame (getMockResponse message)])) =
             thinking_frame :: thinking_done_frame :: body ++ [closing] /\
             (exists text, closing = done_frame text) /\
             frames_of_type "done" body = [] /\ frames_of_type "thinking" body = [] /\
             frames_of_type "error" body = [] /\ frames_of_type "connected" body = []).
  { exists (word_frames (getMockResponse message)), (done_frame (getMockResponse message)).
    rewrite ServerFacts.emitted_app, !ServerFacts.frames_of_type_word_frames.
    split_and!; try reflexivity. now eexists. }
  destruct (useAI g), (model g) as [m|]; try exact Hmock.
  destruct (m (Some message)) as [| |chunks []]; cbv iota;
    rewrite ?ServerFacts.send_open by reflexivity; cbn [outbox];
    rewrite <- ?app_assoc, ServerFacts.emitted_app.
  - exists (thinking_done_frame :: word_frames (getMockResponse message)),
      (done_frame (getMockResponse message)).
    rewrite !ServerFacts.frames_of_type_cons, !ServerFacts.frames_of_type_word_frames.
    split_and!; try reflexivity. now eexists.
  - exists [], error_frame. now split_and!.
  - exists (chunk_frames chunks),
      (done_frame (JsString.concat_all (List.filter nonempty chunks))).
    rewrite !ServerFacts.frames_of_type_chunk_frames.
    split_and!; try reflexivity. now eexists.
  - exists (chunk_frames chunks ++ thinking_done_frame :: word_frames (getMockResponse message)),
      (done_frame (getMockResponse message)).
    rewrite !ServerFacts.frames_of_type_app, !ServerFacts.frames_of_type_cons,
      !ServerFacts.frames_of_type_chunk_frames, !ServerFacts.frames_of_type_word_frames.
    split_and!; try reflexivity; [|now eexists]. cbn [app]. now rewrite <- app_assoc.
  - exists (chunk_frames chunks), error_frame.
    rewrite !ServerFacts.frames_of_type_chunk_frames.
    split_and!; reflexivity.
Qed.

Lemma turn_frame_order_witness :
  readyState accepted = OPEN /\
  exists body closing,
    emitted accepted (onMessage breaking_nullish accepted (Decoded (Some "chat") (Some "help"))) =
      thinking_frame :: thinking_done_frame :: body ++ [closing] /\
    closing = error_frame /\
    frames_of_type "done" body = [].
Proof.
  split; [reflexivity|].
  destruct (turn_frame_order breaking_nullish accepted "help" eq_refl)
    as (body & closing & H1 & H2 & H3 & _).
  exists body, closing. split_and!; assumption.
Defined.

(** The upstream path forwards the non-empty chunks verbatim and in
    order, one [stream] frame each, and [done] carries the concatenation
    of all chunks. *)
Theorem upstream_chunks_forwarded (m : Model) (ws : Socket) (message : string)
        (chunks : list string) :
  readyState ws = OPEN ->
  m (Some message) = Streams chunks Exhausted ->
  emitted ws (fst (handleChatMessage (mkGlobals true (Some m)) ws (Some message))) =
    [thinking_frame; thinking_done_frame]
      ++ List.map stream_frame (List.filter nonempty chunks)
      ++ [done_frame (JsString.concat_all chunks)].
Proof.
  intros H Hm. rewrite ServerFacts.handleChatMessage_open by assumption.
  cbn [fst]. rewrite ServerFacts.emitted_app.
  unfold turn_frames, gemini_frames, chunk_frames. cbn [useAI model]. rewrite Hm.
  now rewrite concat_all_nonempty.
Qed.

Lemma upstream_chunks_forwarded_witness :
  readyState accepted = OPEN /\
  emitted accepted (fst (handleChatMessage answering accepted (Some "hi"))) =
    [thinking_frame; thinking_done_frame; stream_frame "Hello"; stream_frame " there";
     done_frame "Hello there"].
Proof.
  split; [reflexivity|].
  exact (upstream_chunks_forwarded (fun _ => Streams ["Hello"; ""; " there"] Exhausted)
           accepted "hi" ["Hello"; ""; " there"] eq_refl eq_refl).
Defined.

Lemma sendMockResponse_open_none (ws : Socket) :
  readyState ws = OPEN ->
  sendMockResponse ws None = (mkSocket OPEN (outbox ws ++ [thinking_done_frame]), Throw).
Proof. intros H. unfold sendMockResponse. now rewrite ServerFacts.send_open. Qed.

(** A [chat] frame without a text content, with the upstream unavailable
    or failing: the fallback raises after its [thinking_done], and the
    listener answers with [error]; the turn has no [done] frame and no
    fallback word. *)
Theorem chat_without_text_is_refused (g : Globals) (ws : Socket) :
  readyState ws = OPEN ->
  upstream_down g None = true ->
  exists upstream_part,
    emitted ws (onMessage g ws (Decoded (Some "chat") None)) =
      thinking_frame :: upstream_part ++ [thinking_done_frame; error_frame] /\
    frames_of_type "done" upstream_part = [] /\
    frames_of_type "error" upstream_part = [].
Proof.
  intros H Hdown. unfold onMessage.
  change (String.eqb "chat" "chat") with true. cbv iota.
  unfold handleChatMessage, upstream_down in *.
  rewrite (ServerFacts.send_open ws) by assumption.
  assert (Hmock : exists upstream_part,
             emitted ws
               (let (ws', c) := sendMockResponse (mkSocket OPEN (outbox ws ++ [thinking_frame])) None in
                match c with Normal => ws' | Throw => send ws' error_frame end) =
             thinking_frame :: upstream_part ++ [thinking_done_frame; error_frame] /\
             frames_of_type "done" upstream_part = [] /\
             frames_of_type "error" upstream_part = []).
  { rewrite sendMockResponse_open_none by reflexivity.
    rewrite ServerFacts.send_open by reflexivity. cbn [outbox].
    rewrite <- !app_assoc. rewrite ServerFacts.emitted_app.
    exists []. now split_and!. }
  destruct (useAI g), (model g) as [m|]; try exact Hmock.
  unfold streamGeminiResponse. rewrite ServerFacts.send_open by reflexivity.
  unfold on_gemini_error.
  destruct (m None) as [| |chunks []]; try discriminate.
  - rewrite sendMockResponse_open_none by reflexivity.
    rewrite ServerFacts.send_open by reflexivity. cbn [outbox].
    rewrite <- !app_assoc. rewrite ServerFacts.emitted_app.
    exists [thinking_done_frame]. now split_and!.
  - unfold forward_chunks. rewrite ServerFacts.forward_chunks_from by reflexivity.
    cbv beta iota. rewrite sendMockResponse_open_none by reflexivity.
    rewrite ServerFacts.send_open by reflexivity. cbn [outbox].
    rewrite <- !app_assoc. rewrite ServerFacts.emitted_app.
    exists (thinking_done_frame :: chunk_frames chunks).
    rewrite ServerFacts.frames_of_type_cons, ServerFacts.frames_of_type_cons,
      !ServerFacts.frames_of_type_chunk_frames.
    split_and!; reflexivity.
Qed.

Lemma chat_without_text_is_refused_witness :
  readyState accepted = OPEN /\
  upstream_down demo_mode None = true /\
  exists upstream_part,
    emitted accepted (onMessage demo_mode accepted (Decoded (Some "chat") None)) =
      thinking_frame :: upstream_part ++ [thinking_done_frame; error_frame].
Proof.
  split; [reflexivity|]. split; [reflexivity|].
  destruct (chat_without_text_is_refused demo_mode accepted eq_refl eq_refl)
    as (part & H & _).
  exists part. exact H.
Defined.

(** *** Start-up *)

Lemma try_models_spec (gm : string -> Model) (probe : string -> Probe) (names : list string) :
  let r := try_models gm probe names in
  (exists rest, names = tried r ++ rest) /\
  (useAI (globals r) = true ->
   exists before name,
     tried r = before ++ [name] /\
     probe_ok (probe name) = true /\
     Forall (fun n => probe_ok (probe n) = false) before /\
     model (globals r) = Some (gm name)) /\
  (useAI (globals r) = false ->
   model (globals r) = None /\ tried r = names /\
   Forall (fun n => probe_ok (probe n) = false) names).
Proof.
  induction names as [|n names IH]; cbn [try_models]; cbv zeta.
  - split_and!; [exists []; reflexivity | discriminate | intros _; now split_and!].
  - cbv zeta in IH. destruct IH as ((rest & Hrest) & Hon & Hoff).
    assert (Hskip : probe_ok (probe n) = false ->
              let r := mkStartup (globals (try_models gm probe names))
                                 (n :: tried (try_models gm probe names)) in
              (exists rest, n :: names = tried r ++ rest) /\
              (useAI (globals r) = true ->
               exists before name,
                 tried r = before ++ [name] /\ probe_ok (probe name) = true /\
                 Forall (fun n => probe_ok (probe n) = false) before /\
                 model (globals r) = Some (gm name)) /\
              (useAI (globals r) = false ->
               model (globals r) = None /\ tried r = n :: names /\
               Forall (fun n => probe_ok (probe n) = false) (n :: names))).
    { intros Hn. cbv zeta. cbn [globals tried]. split_and!.
      - exists rest. cbn [app]. now rewrite <- Hrest.
      - intros Hu. destruct (Hon Hu) as (before & name & Ht & Hok & Hbefore & Hm).
        exists (n :: before), name. rewrite Ht. split_and!; auto.
      - intros Hu. destruct (Hoff Hu) as (Hm & Ht & Hall). rewrite Ht. now split_and!; auto. }
    destruct (probe n) as [|text] eqn:Hp; [now apply Hskip|].
    destruct (nonempty text) eqn:Ht.
    + cbn [globals tried useAI model]. split_and!.
      * exists names. reflexivity.
      * intros _. exists [], n. rewrite Hp. now split_and!.
      * discriminate.
    + apply Hskip. exact Ht.
Qed.

(** Start-up: without an API key no model is probed and the server runs
    without upstream.  With a key the candidates are probed in the order of
    [MODEL_OPTIONS], the first one that answers with a non-empty text is
    kept and nothing after it is probed; when none does, all were probed
    and the server runs without upstream.  [useAI] is set exactly when a
    model is kept. *)
Theorem startup_keeps_first_working_model (key : option string)
        (getGenerativeModel : string -> Model) (probe : string -> Probe) :
  let r := initializeGemini key getGenerativeModel probe in
  (key = None \/ key = Some "" -> globals r = mkGlobals false None /\ tried r = []) /\
  (exists rest, MODEL_OPTIONS = tried r ++ rest) /\
  (useAI (globals r) = true <-> model (globals r) <> None) /\
  (useAI (globals r) = true ->
   exists before name,
     tried r = before ++ [name] /\
     probe_ok (probe name) = true /\
     Forall (fun n => probe_ok (probe n) = false) before /\
     model (globals r) = Some (getGenerativeModel name)) /\
  (useAI (globals r) = false -> key <> None -> key <> Some "" ->
   tried r = MODEL_OPTIONS /\
   Forall (fun n => probe_ok (probe n) = false) MODEL_OPTIONS).
Proof.
  cbv zeta. unfold initializeGemini.
  destruct key as [k|]; [destruct (String.eqb_spec k "") as [->|Hk]|].
  2: { pose proof (try_models_spec getGenerativeModel probe MODEL_OPTIONS) as H.
       cbv zeta in H. destruct H as (Hpre & Hon & Hoff). split_and!.
       - intros [H|H]; congruence.
       - exact Hpre.
       - split.
         + intros Hu. destruct (Hon Hu) as (b & n & _ & _ & _ & Hm). rewrite Hm. discriminate.
         + intros Hm. destruct (useAI _) eqn:Hu; [reflexivity|].
           destruct (Hoff eq_refl) as (Hnone & _). congruence.
       - exact Hon.
       - intros Hu _ _. destruct (Hoff Hu) as (_ & Ht & Hall). now split. }
  all: cbn [globals tried useAI model]; split_and!;
    [ intros _; now split
    | exists MODEL_OPTIONS; reflexivity
    | split; [discriminate | intros H; now destruct H]
    | discriminate
    | intros _ H1 H2; congruence ].
Qed.

Lemma startup_keeps_first_working_model_witness :
  let probe := fun n => if String.eqb n "gemini-2.5-flash" then ProbeRaises
                        else ProbeText "Hello!" in
  let r := initializeGemini (Some "key") (fun _ _ => Rejects) probe in
  useAI (globals r) = true /\
  exists before name,
    tried r = before ++ [name] /\ probe_ok (probe name) = true /\
    Forall (fun n => probe_ok (probe n) = false) before.
Proof.
  cbv zeta. split; [reflexivity|].
  destruct (proj1 (proj2 (proj2 (proj2
              (startup_keeps_first_working_model (Some "key") (fun _ _ => Rejects)
                 (fun n => if String.eqb n "gemini-2.5-flash" then ProbeRaises
                           else ProbeText "Hello!"))))) eq_refl)
    as (before & name & H1 & H2 & H3 & _).
  exists before, name. now split_and!.
Defined.

(** *** The keyword table of the fallback *)

Lemma toLowerCase_app (a b : string) :
  JsString.toLowerCase (a +:+ b) = JsString.toLowerCase a +:+ JsString.toLowerCase b.
Proof.
  induction a as [|c a IH]; [reflexivity|].
  rewrite JsStringFacts.append_cons. cbn [JsString.toLowerCase].
  now rewrite JsStringFacts.append_cons, IH.
Qed.

Lemma startsWith_app (k rest : string) : JsString.startsWith k (k +:+ rest) = true.
Proof.
  induction k as [|c k IH]; [reflexivity|].
  rewrite JsStringFacts.append_cons. cbn [JsString.startsWith].
  now rewrite Ascii.eqb_refl, IH.
Qed.

Lemma includes_app (pre k post : string) :
  JsString.includes (pre +:+ k +:+ post) k = true.
Proof.
  induction pre as [|c pre IH].
  - rewrite JsStringFacts.append_nil.
    destruct (k +:+ post) eqn:E; cbn [JsString.includes]; rewrite <- E, startsWith_app;
      reflexivity.
  - rewrite JsStringFacts.append_cons. cbn [JsString.includes]. rewrite IH.
    apply orb_true_r.
Qed.

(** The greeting keywords win wherever they stand and however they are
    cased: a message that contains [hi] or [hello] in any letter case gets
    the greeting, whatever other keywords it contains. *)
Theorem greeting_keyword_anywhere (before keyword after : string) :
  JsString.toLowerCase keyword = "hi" \/ JsString.toLowerCase keyword = "hello" ->
  getMockResponse (before +:+ keyword +:+ after) = greeting.
Proof.
  intros Hk. unfold getMockResponse. cbv zeta.
  rewrite !toLowerCase_app.
  destruct Hk as [-> | ->]; rewrite includes_app; [reflexivity|].
  now rewrite orb_true_r.
Qed.

Lemma greeting_keyword_anywhere_witness :
  JsString.toLowerCase "Hi" = "hi" /\
  getMockResponse "What is tHIs weather, thanks" = greeting.
Proof.
  split; [reflexivity|].
  exact (greeting_keyword_anywhere "What is t" "HI" "s weather, thanks" (or_introl eq_refl)).
Defined.

End TurnFacts.

(** ** The hook: disposal, exposed state and delivery *)

Module LifecycleFacts.
Import Wire Hook HookFacts.

Section Lifecycle.
Context {U : Type} (accepts : string -> bool) (opts : UseWebSocketOptions U).
Local Abbreviation step := (Hook.step accepts opts).
Local Abbreviation run := (Hook.run accepts opts).

Lemma unmount_disposes (h : State U) :
  disposed (fst (unmount h)) /\ forallb is_silent (snd (unmount h)) = true /\
  ui (fst (unmount h)) = ui h.
Proof.
  unfold unmount, disposed.
  destruct (reconnectTimeoutRef h), (wsRef h); cbn; now split_and!.
Qed.

Lemma step_disposed (h h' : State U) (e : Event) (effs : list Effect) :
  is_Connect e = false ->
  step h e = Some (h', effs) ->
  disposed h ->
  disposed h' /\ forallb is_silent effs = true /\ ui h' = ui h.
Proof.
  intros He Hstep [Hm Hw]. unfold disposed.
  which_event Hstep; try discriminate He; branches;
    cbn [forallb is_silent app andb]; try (now split_and!);
    match goal with
    | H : negb (mountedRef _) = false |- _ => rewrite Hm in H; discriminate H
    | _ => congruence
    end.
Qed.

(** After the component unmounted, and until somebody calls [connect()]
    again, the hook does nothing that reaches the network or the caller: no
    socket is created, no retry is scheduled, no frame is sent, no callback
    is invoked, whatever events arrive and whichever timers still fire. *)
Theorem nothing_happens_after_unmount (h h' : State U) (evs : list Event)
        (effs : list Effect) :
  forallb (fun e => negb (is_Connect e)) evs = true ->
  run h (Unmount :: evs) = Some (h', effs) ->
  forallb is_silent effs = true /\ ui h' = ui h /\ mountedRef h' = false.
Proof.
  intros Hno Hrun.
  apply run_cons in Hrun as (h1 & effs1 & effs2 & Hs & Hr & ->).
  cbn [Hook.step] in Hs. apply some_pair in Hs as [-> ->].
  destruct (unmount_disposes h) as (Hd & Hsil & Hui).
  rewrite forallb_app, Hsil, <- Hui. clear Hsil Hui.
  revert Hd Hr Hno. generalize (fst (unmount h)). clear h. revert effs2.
  induction evs as [|e evs IH]; intros effs2 h Hd Hr Hno.
  - cbn in Hr. inversion Hr; subst. destruct Hd as [Hm _]. now split_and!.
  - apply run_cons in Hr as (h1 & effs1 & effs3 & Hs & Hr & ->).
    cbn [forallb] in Hno. apply andb_prop in Hno as [He Hno].
    apply negb_true_iff in He.
    destruct (step_disposed _ _ _ _ He Hs Hd) as (Hd1 & Hs1 & Hu1).
    destruct (IH _ _ Hd1 Hr Hno) as (H1 & H2 & H3).
    rewrite forallb_app, Hs1, <- Hu1. cbn [andb] in *. now split_and!.
Qed.

(** [disconnect] on a hook that is already disconnected changes nothing
    and has no effect: calling it twice is the same as calling it once. *)
Theorem disconnect_twice (h : State U) :
  disconnect opts (fst (disconnect opts h)) = (fst (disconnect opts h), []).
Proof.
  unfold disconnect. destruct (reconnectTimeoutRef h), (wsRef h); reflexivity.
Qed.

(** *** The exposed state *)









(** *** Delivery to the message callback *)

Lemma step_mounted (h h' : State U) (e : Event) (effs : list Effect) :
  is_Unmount e = false ->
  step h e = Some (h', effs) ->
  mountedRef h' = mountedRef h.
Proof.
  intros He Hstep. which_event Hstep; try discriminate He; branches; reflexivity.
Qed.

Lemma step_calls (h h' : State U) (e : Event) (effs : list Effect)
      (f : Z -> Inbound -> U -> U * Completion) :
  onMessage opts = Some f ->
  mountedRef h = true ->
  step h e = Some (h', effs) ->
  handler_calls effs = decoded_frames [e].
Proof.
  intros Hf Hm Hstep. which_event Hstep; branches;
    try reflexivity; try congruence;
    try (match goal with
         | H : negb (mountedRef _) = true |- _ => rewrite Hm in H; discriminate H
         end).
Qed.

(** While the component is mounted, the message callback is called exactly
    once for every frame that decodes, with that frame, in arrival order,
    and never for a frame that does not decode. *)
Theorem handler_called_once_per_frame (h h' : State U) (evs : list Event)
        (effs : list Effect) (f : Z -> Inbound -> U -> U * Completion) :
  onMessage opts = Some f ->
  mountedRef h = true ->
  forallb (fun e => negb (is_Unmount e)) evs = true ->
  run h evs = Some (h', effs) ->
  handler_calls effs = decoded_frames evs.
Proof.
  intros Hf. revert h effs.
  induction evs as [|e evs IH]; intros h effs Hm Hno Hrun.
  - cbn in Hrun. inversion Hrun. reflexivity.
  - apply run_cons in Hrun as (h1 & effs1 & effs2 & Hs & Hr & ->).
    cbn [forallb] in Hno. apply andb_prop in Hno as [He Hno].
    apply negb_true_iff in He.
    pose proof (step_mounted _ _ _ _ He Hs) as Hm1. rewrite Hm in Hm1.
    unfold handler_calls. rewrite omap_app. fold (handler_calls effs1) (handler_calls effs2).
    rewrite (step_calls _ _ _ _ f Hf Hm Hs), (IH _ _ Hm1 Hno Hr).
    change (e :: evs) with ([e] ++ evs). unfold decoded_frames. now rewrite omap_app.
Qed.

End Lifecycle.

Lemma nothing_happens_after_unmount_witness :
  exists h effs h' effs',
    App.run (App.start 0) [WsClose 0; Connect; WsClose 1] = Some (h, effs) /\
    App.run h [Unmount; Timeout 1; Disconnect] = Some (h', effs') /\
    forallb is_silent effs' = true /\
    mountedRef h' = false.
Proof.
  eexists _, _, _, _. split; [vm_compute; reflexivity|].
  match goal with
  | |- App.run ?h _ = Some (?h', ?effs') /\ _ =>
      assert (Hrun : App.run h [Unmount; Timeout 1; Disconnect] = Some (h', effs'))
        by (vm_compute; reflexivity);
      split; [exact Hrun|];
      destruct (nothing_happens_after_unmount App.accepts App.options h h'
                  [Timeout 1; Disconnect] effs' eq_refl Hrun) as (H1 & _ & H3)
  end.
  split; [exact H1 | exact H3].
Defined.



Lemma handler_called_once_per_frame_witness :
  exists h effs,
    App.run (App.start 0)
      [WsOpen 0; WsMessage 0 (Decoded (Some "stream") (Some "a")) 1;
       WsMessage 0 Undecodable 2; WsMessage 0 (Decoded (Some "done") (Some "a")) 3]
      = Some (h, effs) /\
    handler_calls effs =
      [Decoded (Some "stream") (Some "a"); Decoded (Some "done") (Some "a")].
Proof.
  eexists _, _. split; [vm_compute; reflexivity|].
  exact (handler_called_once_per_frame App.accepts App.options (App.start 0) _
           [WsOpen 0; WsMessage 0 (Decoded (Some "stream") (Some "a")) 1;
            WsMessage 0 Undecodable 2; WsMessage 0 (Decoded (Some "done") (Some "a")) 3]
           _ Chat.handleWebSocketMessage eq_refl eq_refl eq_refl
           ltac:(vm_compute; reflexivity)).
Defined.

Lemma disconnect_wins_over_own_retries_witness :
  exists h1 effs1 h2 effs2,
    App.run (App.start 0) [WsClose 0; Timeout 1; WsClose 1] = Some (h1, effs1) /\
    App.run h1 [Disconnect; WsError 1] = Some (h2, effs2) /\
    count is_NewWebSocket effs2 = 0.
Proof.
  eexists _, _, _, _. split; [vm_compute; reflexivity|]. split; [vm_compute; reflexivity|].
  exact (proj1 (disconnect_wins_over_own_retries App.accepts App.options (Chat.initial 0)
           [WsClose 0; Timeout 1; WsClose 1] [WsError 1] _ _ _ _ eq_refl eq_refl
           ltac:(vm_compute; reflexivity) ltac:(vm_compute; reflexivity))).
Defined.

End LifecycleFacts.

(** ** The panel: what a turn looks like, errors and sending *)

Module ConversationFacts.
Import Wire.

Local Abbreviation benign :=
  (fun f : Frame => f = Server.thinking_frame \/ f = Server.thinking_done_frame \/
                    exists t, f = Server.stream_frame t).

(** The frames the server sends after [thinking]: [thinking_done], the
    [stream] frames, and [done] unless the upstream threw [null] or
    [undefined]. *)
Lemma turn_body (g : Server.Globals) (message : string) :
  exists body text,
    Server.turn_frames g message =
      Server.thinking_frame :: body ++
        (if Server.upstream_fails_nullish g (Some message) then []
         else [Server.done_frame text]) /\
    Forall benign body.
Proof.
  assert (Hw : forall r, Forall benign (Server.word_frames r)).
  { intros r. unfold Server.word_frames. apply Forall_forall. intros f Hf.
    apply list_elem_of_In, in_map_iff in Hf. destruct Hf as (w & <- & _). right. right. eauto. }
  assert (Hc : forall cs, Forall benign (Server.chunk_frames cs)).
  { intros cs. unfold Server.chunk_frames. apply Forall_forall. intros f Hf.
    apply list_elem_of_In, in_map_iff in Hf. destruct Hf as (w & <- & _). right. right. eauto. }
  assert (Hd : benign Server.thinking_done_frame) by (right; now left).
  unfold Server.turn_frames, Server.gemini_frames, Server.mock_frames,
    Server.upstream_fails_nullish.
  destruct (Server.useAI g), (Server.model g) as [m|];
    try (exists (Server.thinking_done_frame :: Server.word_frames (Server.getMockResponse message)),
           (Server.getMockResponse message);
         split; [reflexivity | apply Forall_cons; split; [exact Hd | apply Hw]]).
  destruct (m (Some message)) as [| |chunks []].
  - exists (Server.thinking_done_frame :: Server.thinking_done_frame ::
            Server.word_frames (Server.getMockResponse message)),
      (Server.getMockResponse message).
    split; [reflexivity|]. repeat (apply Forall_cons; split; [exact Hd|]). apply Hw.
  - exists [Server.thinking_done_frame], "". split; [reflexivity|].
    apply Forall_cons. split; [exact Hd | constructor].
  - exists (Server.thinking_done_frame :: Server.chunk_frames chunks),
      (JsString.concat_all (List.filter Server.nonempty chunks)).
    split; [reflexivity|]. apply Forall_cons. split; [exact Hd | apply Hc].
  - exists (Server.thinking_done_frame :: Server.chunk_frames chunks ++
            Server.thinking_done_frame :: Server.word_frames (Server.getMockResponse message)),
      (Server.getMockResponse message).
    split; [cbn [app]; now rewrite <- app_assoc|].
    apply Forall_cons. split; [exact Hd|]. apply Forall_app. split; [apply Hc|].
    apply Forall_cons. split; [exact Hd | apply Hw].
  - exists (Server.thinking_done_frame :: Server.chunk_frames chunks), "".
    split; [cbn [app]; now rewrite app_nil_r|].
    apply Forall_cons. split; [exact Hd | apply Hc].
Qed.

Lemma benign_no_done (body : list Frame) :
  Forall benign body ->
  frames_of_type "done" body = [] /\ frames_of_type "error" body = [].
Proof.
  induction 1 as [|f body Hf _ [IH1 IH2]]; [now split|].
  rewrite !ServerFacts.frames_of_type_cons, IH1, IH2.
  destruct Hf as [->|[->|[t ->]]]; now split.
Qed.

(** What the user sees of a turn that the server closes with [done]
    (every turn, unless the upstream threw [null] or [undefined]): when its
    frames reach a panel with no turn in progress and nothing queued, in
    order, with React rendering wherever it likes between them and once
    more before [done] is handled, the panel ends idle (not waiting, no
    thinking text, no open message, nothing queued).  If the turn had
    [stream] frames, the list has one more message, the last one: an
    assistant message whose text, also as the bubble shows it, is the
    streamed text of the turn.  If it had none, the list is unchanged. *)
Theorem turn_as_shown (g : Server.Globals) (ws : Server.Socket) (message : string)
        (now : Z) (p : Panel.State) (renders : list bool) (now_done : Z) :
  Server.readyState ws = OPEN ->
  Server.upstream_fails_nullish g (Some message) = false ->
  Chat.currentAssistantIdRef (Panel.shown p) = None ->
  Panel.pending p = [] ->
  let out := Server.emitted ws (fst (Server.handleChatMessage g ws (Some message))) in
  exists before text,
    out = before ++ [Server.done_frame text] /\
    let p' := Panel.play
                (Panel.scheduled now (List.map on_the_wire before) renders
                   ++ [Panel.Render;
                       Panel.Handle now_done (on_the_wire (Server.done_frame text));
                       Panel.Render]) p in
    Chat.isWaiting (Panel.shown p') = false /\
    Chat.thinkingText (Panel.shown p') = None /\
    Chat.currentAssistantIdRef (Panel.shown p') = None /\
    Panel.pending p' = [] /\
    (frames_of_type "stream" out = [] ->
     Chat.messages (Panel.shown p') = Chat.messages (Panel.shown p)) /\
    (frames_of_type "stream" out <> [] ->
     length (Chat.messages (Panel.shown p')) = S (length (Chat.messages (Panel.shown p))) /\
     exists m,
       last (Chat.messages (Panel.shown p')) = Some m /\
       Chat.type m = Chat.assistant /\
       Chat.content m = Some (Server.streamed_text out) /\
       Chat.displayContent m = Some (Server.streamed_text out) /\
       Chat.displayText m = Some (Server.streamed_text out)).
Proof.
  intros Hopen Hup Href Hq. cbv zeta.
  rewrite ServerFacts.handleChatMessage_open by assumption.
  cbn [fst]. rewrite ServerFacts.emitted_app.
  destruct (turn_body g message) as (body & text & -> & Hbody). rewrite Hup.
  assert (Hall : Forall benign (Server.thinking_frame :: body))
    by (apply Forall_cons; split; [now left | exact Hbody]).
  exists (Server.thinking_frame :: body), text. split; [reflexivity|].
  change (Server.thinking_frame :: body ++ [Server.done_frame text])
    with ((Server.thinking_frame :: body) ++ [Server.done_frame text]).
  rewrite PanelFacts.play_app.
  rewrite !ServerFacts.frames_of_type_app, !ServerFacts.streamed_text_app.
  change (frames_of_type "stream" [Server.done_frame text]) with (@nil Frame).
  change (Server.streamed_text [Server.done_frame text]) with "".
  rewrite app_nil_r, JsStringFacts.append_empty_r.
  assert (Hidle : Panel.idle (Chat.messages (Panel.shown p)) p) by now split_and!.
  pose proof (PanelFacts.body_from_idle _ renders now _ p Hall Hidle) as Hcases.
  cbv zeta in Hcases.
  remember (Panel.play (Panel.scheduled now (List.map on_the_wire (Server.thinking_frame :: body))
                          renders) p) as p1 eqn:E1.
  clear E1.
  change (on_the_wire (Server.done_frame text)) with (Chat.done_of (Some text)).
  destruct Hcases as [(Hnone & Hi)|(Hsome & i & since & Hst)].
  - destruct (PanelFacts.done_while_idle _ _ now_done (Some text) Hi)
      as ((Hr & Hp & Hm) & Hw & Ht).
    split_and!; try assumption.
    + intros _. exact Hm.
    + intros H. destruct (H Hnone).
  - destruct (PanelFacts.done_while_streaming _ _ _ _ _ now_done (Some text) Hst)
      as (Hp & Hr & Hw & Ht & earlier & current & Hlen & Hmsgs & _ & Hty & Hc & Hd).
    split_and!; try assumption.
    + intros H. destruct (Hsome H).
    + intros _. split; [rewrite Hmsgs, length_app, Hlen; cbn [length]; lia|].
      exists current. rewrite Hmsgs, last_snoc. split_and!; try assumption; try reflexivity.
      unfold Chat.displayText. now destruct (Chat.isStreaming current) as [[]|].
Qed.

Lemma turn_as_shown_witness :
  Server.readyState Server.accepted = OPEN /\
  Server.upstream_fails_nullish Server.breaking (Some "thanks") = false /\
  Chat.currentAssistantIdRef (Panel.shown (Panel.resting (Chat.initial 0))) = None /\
  Panel.pending (Panel.resting (Chat.initial 0)) = [] /\
  exists before text,
    Server.emitted Server.accepted
      (fst (Server.handleChatMessage Server.breaking Server.accepted (Some "thanks")))
      = before ++ [Server.done_frame text] /\
    Chat.isWaiting
      (Panel.shown
         (Panel.play
            (Panel.scheduled 5 (List.map on_the_wire before) [true; false; false; true]
               ++ [Panel.Render; Panel.Handle 40 (on_the_wire (Server.done_frame text));
                   Panel.Render])
            (Panel.resting (Chat.initial 0)))) = false.
Proof.
  split; [reflexivity|]. split; [reflexivity|]. split; [reflexivity|]. split; [reflexivity|].
  destruct (turn_as_shown Server.breaking Server.accepted "thanks" 5
              (Panel.resting (Chat.initial 0)) [true; false; false; true] 40
              eq_refl eq_refl eq_refl eq_refl) as (before & text & Hout & Hw & _).
  exists before, text. split; assumption.
Defined.

(** *** Errors and interruptions *)

Lemma or_else_nonempty (c : option string) (d : string) :
  d <> "" -> JsString.or_else c d <> "" /\ (c = Some (JsString.or_else c d) \/ JsString.or_else c d = d).
Proof.
  intros Hd. unfold JsString.or_else. destruct c as [t|]; [|now split; [|right]].
  destruct (String.eqb_spec t "") as [->|Ht]; [now split; [|right] | now split; [|left]].
Qed.

(** An [error] event always ends the turn and always shows a text: one
    assistant message is appended whose text is the content of the frame,
    or a fixed sentence when the content is missing or empty.  Earlier
    messages are left as they are, so a message that was being streamed
    stays marked as streaming. *)
Theorem error_event_shows_text (now : Z) (c : option string) (st : Chat.State) :
  let st' := fst (Chat.handleWebSocketMessage now (Decoded (Some "error") c) st) in
  exists text,
    text <> "" /\
    (c = Some text \/ text = "Something went wrong. Please try again.") /\
    Chat.messages st' =
      Chat.messages st ++
        [Chat.mkMessage ("error-" +:+ JsString.of_number now) Chat.assistant (Some text)
                        now None None] /\
    Chat.rendered (Chat.mkMessage ("error-" +:+ JsString.of_number now) Chat.assistant
                                  (Some text) now None None) = true /\
    Chat.isWaiting st' = false /\ Chat.thinkingText st' = None /\
    Chat.currentAssistantIdRef st' = None.
Proof.
  cbv zeta.
  destruct (or_else_nonempty c "Something went wrong. Please try again." ltac:(discriminate))
    as [Hne Hsrc].
  exists (JsString.or_else c "Something went wrong. Please try again.").
  split_and!; try reflexivity; try assumption.
  unfold Chat.rendered, Chat.displayText, Chat.isUser, JsString.truthy.
  cbn [Chat.isStreaming Chat.content Chat.type].
  destruct (String.eqb_spec (JsString.or_else c "Something went wrong. Please try again.") "");
    [contradiction | reflexivity].
Qed.

(** A connection that closes in the middle of an answer ends the waiting
    but leaves the half-streamed message open: it stays the current
    assistant message, still marked as streaming, and the first fragment of
    the next answer is appended to it. *)
Theorem interrupted_turn_stays_open (h h' : Hook.State Chat.State) (s : nat)
        (effs : list Hook.Effect) (i text : string) (since : Z) (n : nat)
        (now : Z) (fragment : string) :
  Hook.mountedRef h = true ->
  Chat.streaming i text since n (Hook.ui h) ->
  App.step h (Hook.WsClose s) = Some (h', effs) ->
  Chat.isWaiting (Hook.ui h') = false /\
  Chat.thinkingText (Hook.ui h') = None /\
  Chat.streaming i text since n (Hook.ui h') /\
  Chat.streaming i (text +:+ fragment) since n
    (fst (Chat.handleWebSocketMessage now (Chat.stream_of fragment) (Hook.ui h'))).
Proof.
  intros Hm Hst Hstep. unfold App.step in Hstep. cbn [Hook.step] in Hstep.
  assert (Hui : Hook.ui h' = Chat.onDisconnect (Hook.ui h)).
  { assert (Hok : Some (Hook.onclose App.options
                          (Hook.with_sockets h (<[s := CLOSED]> (Hook.sockets h))))
                  = Some (h', effs))
      by (destruct (Hook.sockets h !! s) as [[]|]; try discriminate; exact Hstep).
    apply HookFacts.some_pair in Hok as [-> _].
    unfold Hook.onclose, Hook.with_sockets. cbn [Hook.mountedRef Hook.reconnectAttemptsRef].
    rewrite Hm. cbn [negb andb].
    destruct (Hook.reconnectAttemptsRef h <? Hook.maxReconnectAttempts App.options)%Z; reflexivity. }
  rewrite Hui.
  assert (Hst' : Chat.streaming i text since n (Chat.onDisconnect (Hook.ui h))) by exact Hst.
  split_and!; try reflexivity; try exact Hst'.
  now apply (ChatFacts.next_fragment_appends i text since now n fragment).
Qed.

Lemma interrupted_turn_stays_open_witness :
  exists h effs h' effs',
    App.run (App.start 0) [Hook.WsOpen 0; Hook.WsMessage 0 (Chat.stream_of "Hel") 7]
      = Some (h, effs) /\
    App.step h (Hook.WsClose 0) = Some (h', effs') /\
    Chat.streaming "assistant-7" "Hel" 7 1 (Hook.ui h').
Proof.
  eexists _, _, _, _. split; [vm_compute; reflexivity|].
  match goal with
  | |- App.step ?h _ = Some (?h', ?effs') /\ _ =>
      assert (Hstep : App.step h (Hook.WsClose 0) = Some (h', effs'))
        by (vm_compute; reflexivity);
      split; [exact Hstep|];
      refine (proj1 (proj2 (proj2 (interrupted_turn_stays_open h h' 0 effs'
                "assistant-7" "Hel" 7 1 0 "lo" eq_refl _ Hstep))))
  end.
  split; [reflexivity|]. split; [reflexivity|].
  exists [Chat.mkMessage "welcome" Chat.assistant
            (Some (Chat.wave +:+ " Hi! How can we help?")) 0 None None].
  split; reflexivity.
Defined.

(** *** Sending *)






(** The frame [sendMessage] builds is one the server takes: on an open
    socket the listener answers it with a turn that starts with
    [thinking].  The turn has a single [done] frame and no [error] frame,
    and [handleChatMessage] returns, whatever the text; except when the
    upstream threw [null] or [undefined]: then [handleChatMessage] raises,
    and the turn has no [done] frame and ends with the [error] frame of
    the listener. *)
Theorem chat_frame_starts_a_turn (g : Server.Globals) (ws : Server.Socket) (payload : string) :
  Server.readyState ws = OPEN ->
  let out := Server.emitted ws (Server.onMessage g ws (on_the_wire (Hook.chat_frame payload))) in
  hd_error out = Some Server.thinking_frame /\
  if Server.upstream_fails_nullish g (Some payload)
  then snd (Server.handleChatMessage g ws (Some payload)) = Throw /\
       frames_of_type "done" out = [] /\
       frames_of_type "error" out = [Server.error_frame] /\
       last out = Some Server.error_frame
  else snd (Server.handleChatMessage g ws (Some payload)) = Normal /\
       length (frames_of_type "done" out) = 1 /\
       frames_of_type "error" out = [].
Proof.
  intros H. cbv zeta. unfold on_the_wire, Hook.chat_frame.
  cbn [Wire.type Wire.content Server.onMessage].
  change (String.eqb "chat" "chat") with true. cbv iota.
  rewrite ServerFacts.handleChatMessage_open by assumption. cbn [snd].
  unfold Server.turn_completion.
  destruct (turn_body g payload) as (body & text & -> & Hbody).
  destruct (benign_no_done body Hbody) as [Hnd Hne].
  destruct (Server.upstream_fails_nullish g (Some payload)).
  - rewrite ServerFacts.send_open by reflexivity. cbn [Server.outbox].
    rewrite <- app_assoc, ServerFacts.emitted_app, app_nil_r.
    change ((Server.thinking_frame :: body) ++ [Server.error_frame])
      with ([Server.thinking_frame] ++ body ++ [Server.error_frame]).
    rewrite !ServerFacts.frames_of_type_app, Hnd, Hne.
    split_and!; try reflexivity.
    change ([Server.thinking_frame] ++ body ++ [Server.error_frame])
      with ((Server.thinking_frame :: body) ++ [Server.error_frame]).
    apply last_snoc.
  - rewrite ServerFacts.emitted_app.
    change (Server.thinking_frame :: body ++ [Server.done_frame text])
      with ([Server.thinking_frame] ++ body ++ [Server.done_frame text]).
    rewrite !ServerFacts.frames_of_type_app, Hnd, Hne. now split_and!.
Qed.

Lemma chat_frame_starts_a_turn_witness :
  Server.readyState Server.accepted = OPEN /\
  last (Server.emitted Server.accepted
          (Server.onMessage Server.breaking_nullish Server.accepted
             (on_the_wire (Hook.chat_frame "what can you do")))) = Some Server.error_frame.
Proof.
  split; [reflexivity|].
  exact (proj2 (proj2 (proj2 (proj2 (chat_frame_starts_a_turn Server.breaking_nullish
                                       Server.accepted "what can you do" eq_refl))))).
Defined.

Lemma trimStart_blank (text : string) :
  forallb Ascii.is_space (list_ascii_of_string text) = true ->
  JsString.trimStart text = "".
Proof.
  induction text as [|c text IH]; [reflexivity|].
  cbn [list_ascii_of_string forallb JsString.trimStart]. intros H.
  apply andb_prop in H as [-> H]. now apply IH.
Qed.

(** A send is dropped, with nothing transmitted and nothing changed, when
    the text consists of white space only (or is empty), and also while
    the panel waits for an answer. *)
Theorem blank_or_waiting_send_is_dropped (now : Z) (messageText : option string)
        (inputValue : string) (h : Hook.State Chat.State) :
  forallb Ascii.is_space
    (list_ascii_of_string (match messageText with Some t => t | None => inputValue end)) = true
  \/ Chat.isWaiting (Hook.ui h) = true ->
  App.handleSend now messageText inputValue h = (h, inputValue, []).
Proof.
  intros [Hblank|Hw]; unfold App.handleSend.
  - unfold JsString.trim. rewrite (trimStart_blank _ Hblank). reflexivity.
  - rewrite Hw. now rewrite orb_true_r.
Qed.

Lemma blank_or_waiting_send_is_dropped_witness :
  App.handleSend 3 None "   " (App.opened 0) = (App.opened 0, "   ", []).
Proof.
  exact (blank_or_waiting_send_is_dropped 3 None "   " (App.opened 0) (or_introl eq_refl)).
Defined.

End ConversationFacts.
